(** * worker.js: the archive-to-site pipeline of the web hosting worker

    A shallow embedding of [src/worker.js]: the MIME table ([getMimeType]),
    entry point resolution ([findEntryPoint]), archive extraction into the
    object store ([extractZip]), the upload handler ([handleZipUpload]), the
    site server ([serveHostedSite]) and the regular-expression based path
    rewriter ([fixRelativePaths]); then the identifiers ([generateSiteId]),
    the listing ([listSites]) and the router ([fetch]).  [formatBytes] works
    on floating point numbers and enters as a function that is given; so do
    the two handlers the router names and the file does not hold.

    Conventions of the embedding.
    - A JavaScript string is a [string]: a sequence of code units.  Every
      literal and every character class of the source is ASCII, and no
      character outside ASCII lower-cases to one of the ASCII letters the
      source compares against, so [toLowerCase] acts on [A-Z] only.
    - A [Uint8Array] and the text of a stored object are [string]s too: a
      sequence of bytes, read back as it was written.
    - [env.WEBSITES_BUCKET] is an in-memory store, a [gmap] from keys to
      objects, threaded through the handlers; it accepts every write, keeps
      the content type it is given, and answers every read.
    - A thrown exception is the [Throw] outcome of a computation in [M]; the
      store keeps what was written before the throw. *)

From Stdlib Require Import Ascii String List Bool Arith Lia.
From stdpp Require Import base option list strings gmap sorting.

Local Open Scope string_scope.
Import ListNotations.

(** ** String primitives of the JavaScript runtime *)

Module Js.

(** [c.toLowerCase()] on one code unit. *)
Definition lower_ascii (c : ascii) : ascii :=
  let n := nat_of_ascii c in
  if (65 <=? n)%nat && (n <=? 90)%nat then ascii_of_nat (n + 32) else c.

(** [s.toLowerCase()] *)
Fixpoint toLowerCase (s : string) : string :=
  match s with
  | EmptyString => EmptyString
  | String c s' => String (lower_ascii c) (toLowerCase s')
  end.

(** [s.startsWith(p)] *)
Fixpoint startsWith (p s : string) : bool :=
  match p with
  | EmptyString => true
  | String a p' =>
      match s with
      | EmptyString => false
      | String b s' => Ascii.eqb a b && startsWith p' s'
      end
  end.

(** [s.includes(needle)] *)
Fixpoint includes (needle s : string) : bool :=
  startsWith needle s ||
  match s with
  | EmptyString => false
  | String _ s' => includes needle s'
  end.

(** [s.endsWith(suffix)] *)
Fixpoint endsWith (suffix s : string) : bool :=
  String.eqb s suffix ||
  match s with
  | EmptyString => false
  | String _ s' => endsWith suffix s'
  end.

(** [s.split(sep)] for a one-character separator: never the empty list. *)
Fixpoint split (sep : ascii) (s : string) : list string :=
  match s with
  | EmptyString => [EmptyString]
  | String c s' =>
      if Ascii.eqb c sep then EmptyString :: split sep s'
      else match split sep s' with
           | seg :: rest => String c seg :: rest
           | [] => [String c EmptyString]
           end
  end.

(** [parts.join(sep)] *)
Fixpoint join (sep : string) (parts : list string) : string :=
  match parts with
  | [] => EmptyString
  | [p] => p
  | p :: rest => p +:+ sep +:+ join sep rest
  end.

(** [a.pop()] on a non-empty array: its last element. *)
Definition pop (parts : list string) : string := List.last parts EmptyString.

(** [a.slice(n)] *)
Definition slice (n : nat) {A} (l : list A) : list A := List.skipn n l.

End Js.

(** ** Values and exceptions *)

(** The values [getMimeType] can return.  [mimeTypes] is an object literal, so
    [mimeTypes[ext]] also finds what the literal inherits from
    [Object.prototype]; [ext] is lower-cased, and the inherited names written
    in lower case are [constructor] (the function [Object]) and [__proto__]
    (the object [Object.prototype]).  Both are truthy. *)
Inductive jsval : Type :=
  | VStr (s : string)
  | VObjectFunction
  | VObjectPrototype.

(** What a computation can throw.  [TypeError] is the only exception the
    source raises itself (a property read on [undefined], a call of a missing
    method).  The other names are the error taxonomy of the specification; no
    path of the source produces them. *)
Inductive exn : Type :=
  | TypeError
  | EmptySiteError
  | DecodeError
  | StoreWriteError.

Inductive result (A : Type) : Type :=
  | Ok (a : A)
  | Throw (e : exn).
Arguments Ok {A} a.
Arguments Throw {A} e.

Definition rbind {A B} (r : result A) (k : A -> result B) : result B :=
  match r with
  | Ok a => k a
  | Throw e => Throw e
  end.

(** [t.includes(needle)] on a value that is meant to be a string: a value
    without an [includes] method makes the call throw. *)
Definition includes_val (needle : string) (t : jsval) : result bool :=
  match t with
  | VStr s => Ok (Js.includes needle s)
  | _ => Throw TypeError
  end.

(** ** getMimeType *)

Definition mimeTypes : list (string * string) :=
  [ ("html", "text/html");
    ("htm", "text/html");
    ("css", "text/css");
    ("js", "application/javascript");
    ("json", "application/json");
    ("png", "image/png");
    ("jpg", "image/jpeg");
    ("jpeg", "image/jpeg");
    ("gif", "image/gif");
    ("svg", "image/svg+xml");
    ("txt", "text/plain");
    ("pdf", "application/pdf");
    ("zip", "application/zip") ].

Fixpoint own_property (key : string) (table : list (string * string)) : option string :=
  match table with
  | [] => None
  | (k, v) :: rest => if String.eqb k key then Some v else own_property key rest
  end.

(** [mimeTypes[ext]]: own properties first, then the prototype. *)
Definition mimeTypes_get (ext : string) : option jsval :=
  match own_property ext mimeTypes with
  | Some v => Some (VStr v)
  | None =>
      if String.eqb ext "constructor" then Some VObjectFunction
      else if String.eqb ext "__proto__" then Some VObjectPrototype
      else None
  end.

Definition getMimeType (filename : string) : jsval :=
  let ext := Js.toLowerCase (Js.pop (Js.split "." filename)) in
  match mimeTypes_get ext with
  | Some v => v
  | None => VStr "application/octet-stream"
  end.

(** ** FileEntry and findEntryPoint *)

Record FileEntry : Type := mkFileEntry {
  name : string;
  type : jsval;
  size : nat;
  path : string
}.

Definition entryPoints : list string :=
  ["index.html"; "index.htm"; "default.html"; "default.htm"; "main.html"].

(** [files.some(f => f.name.toLowerCase() === entry)] *)
Definition some_named (entry : string) (files : list FileEntry) : bool :=
  existsb (fun f => String.eqb (Js.toLowerCase (name f)) entry) files.

(** The callback of [files.filter]:
    [f.type.includes('html') || f.name.endsWith('.html')]. *)
Definition is_html (f : FileEntry) : result bool :=
  rbind (includes_val "html" (type f)) (fun b =>
  Ok (b || Js.endsWith ".html" (name f))).

(** [files.filter(cb)] with a callback that can throw: the callback runs on
    every element, in order, before anything is returned. *)
Fixpoint filter_r {A} (cb : A -> result bool) (l : list A) : result (list A) :=
  match l with
  | [] => Ok []
  | x :: rest =>
      rbind (cb x) (fun keep =>
      rbind (filter_r cb rest) (fun kept =>
      Ok (if keep then x :: kept else kept)))
  end.

Definition findEntryPoint (files : list FileEntry) : result string :=
  match List.find (fun entry => some_named entry files) entryPoints with
  | Some entry => Ok entry
  | None =>
      rbind (filter_r is_html files) (fun htmlFiles =>
      match htmlFiles with
      | f :: _ => Ok (name f)
      | [] =>
          match files with
          | f :: _ => Ok (name f)
          | [] => Throw TypeError
          end
      end)
  end.


(** ** Regular expressions

    The four patterns of [fixRelativePaths] use literals, character classes,
    a greedy star on a character class, an optional literal, an alternation
    inside a negative lookahead, and three capturing groups.  The matcher is
    the backtracking matcher of the language definition, written with
    continuations: a pattern is run on a state with the continuation that
    stands for the rest of the pattern, and a failed continuation makes the
    pattern try its next choice. *)

Module Regex.

Definition dquote : ascii := "034"%char.

Inductive cclass : Type :=
  | OneOf (cs : string)    (* [cs]  *)
  | NoneOf (cs : string).  (* [^cs] *)

Fixpoint mem (c : ascii) (cs : string) : bool :=
  match cs with
  | EmptyString => false
  | String d cs' => Ascii.eqb c d || mem c cs'
  end.

Definition in_class (cl : cclass) (c : ascii) : bool :=
  match cl with
  | OneOf cs => mem c cs
  | NoneOf cs => negb (mem c cs)
  end.

Inductive regex : Type :=
  | Lit (s : string)                 (* the characters of s, in order *)
  | Class (cl : cclass)              (* one character of the class *)
  | Star (cl : cclass)               (* [..]*, greedy *)
  | Opt (r : regex)                  (* r?, greedy *)
  | Seq (r1 r2 : regex)              (* r1 r2 *)
  | Alt (r1 r2 : regex)              (* r1|r2 *)
  | Group (n : nat) (r : regex)      (* the n-th capturing parentheses *)
  | NegLookahead (r : regex).        (* (?!r) *)

(** A match in progress: what has been consumed since the enclosing group
    (or the start of the match) began, the input that remains, and the
    captures made so far. *)
Record mstate : Type := mkState {
  consumed : string;
  rest : string;
  caps : gmap nat string
}.

Definition cont : Type := mstate -> option mstate.

Definition snoc (s : string) (c : ascii) : string := s +:+ String c EmptyString.

Fixpoint match_lit (lit : string) (st : mstate) (k : cont) : option mstate :=
  match lit with
  | EmptyString => k st
  | String a lit' =>
      match rest st with
      | String b r =>
          if Ascii.eqb a b
          then match_lit lit' (mkState (snoc (consumed st) b) r (caps st)) k
          else None
      | EmptyString => None
      end
  end.

Definition match_class (cl : cclass) (st : mstate) (k : cont) : option mstate :=
  match rest st with
  | String b r =>
      if in_class cl b then k (mkState (snoc (consumed st) b) r (caps st)) else None
  | EmptyString => None
  end.

(** Greedy: one more character of the class first; the continuation on what
    has been taken so far only when every longer choice has failed. *)
Fixpoint match_star (cl : cclass) (done : string) (input : string)
    (cs : gmap nat string) (k : cont) : option mstate :=
  match input with
  | String b r =>
      if in_class cl b then
        match match_star cl (snoc done b) r cs k with
        | Some st => Some st
        | None => k (mkState done input cs)
        end
      else k (mkState done input cs)
  | EmptyString => k (mkState done input cs)
  end.

Fixpoint rmatch (r : regex) (st : mstate) (k : cont) : option mstate :=
  match r with
  | Lit s => match_lit s st k
  | Class cl => match_class cl st k
  | Star cl => match_star cl (consumed st) (rest st) (caps st) k
  | Opt r1 =>
      match rmatch r1 st k with
      | Some st' => Some st'
      | None => k st
      end
  | Seq r1 r2 => rmatch r1 st (fun st' => rmatch r2 st' k)
  | Alt r1 r2 =>
      match rmatch r1 st k with
      | Some st' => Some st'
      | None => rmatch r2 st k
      end
  | Group n r1 =>
      rmatch r1 (mkState EmptyString (rest st) (caps st))
        (fun st' => k (mkState (consumed st +:+ consumed st') (rest st')
                               (<[n := consumed st']> (caps st'))))
  | NegLookahead r1 =>
      match rmatch r1 st Some with
      | Some _ => None
      | None => k st
      end
  end.

(** One attempt at the current position of the input. *)
Definition exec (r : regex) (input : string) : option mstate :=
  rmatch r (mkState EmptyString input ∅) Some.

Fixpoint group_count (r : regex) : nat :=
  match r with
  | Lit _ | Class _ | Star _ => 0
  | Opt r1 | NegLookahead r1 => group_count r1
  | Seq r1 r2 | Alt r1 r2 => group_count r1 + group_count r2
  | Group _ r1 => S (group_count r1)
  end.

(** *** Replacement templates

    [GetSubstitution] of the language definition, for a pattern without named
    groups: [$$], [$&], [$`], [$'], [$n] and [$nn]; any other [$] stands for
    itself.  [m] is the number of capturing groups. *)

Definition capture (cs : gmap nat string) (n : nat) : string :=
  match cs !! n with
  | Some s => s
  | None => EmptyString
  end.

Definition one_digit (cs : gmap nat string) (m : nat) (d : ascii) (n : nat)
    (tail : string) : string :=
  if (1 <=? n)%nat && (n <=? m)%nat then capture cs n +:+ tail
  else String "$" (String d tail).

Fixpoint GetSubstitution (matched before after : string) (cs : gmap nat string)
    (m : nat) (template : string) : string :=
  let go := GetSubstitution matched before after cs m in
  match template with
  | EmptyString => EmptyString
  | String c t =>
      if negb (Ascii.eqb c "$") then String c (go t)
      else
        match t with
        | EmptyString => String "$" EmptyString
        | String d t' =>
            if Ascii.eqb d "$" then String "$" (go t')
            else if Ascii.eqb d "`" then before +:+ go t'
            else if Ascii.eqb d "&" then matched +:+ go t'
            else if Ascii.eqb d "'" then after +:+ go t'
            else
              match Ascii.is_nat d with
              | None => String "$" (go t)
              | Some n1 =>
                  match t' with
                  | EmptyString => one_digit cs m d n1 (go t')
                  | String d2 t'' =>
                      match Ascii.is_nat d2 with
                      | None => one_digit cs m d n1 (go t')
                      | Some n2 =>
                          let index := 10 * n1 + n2 in
                          if (index <=? m)%nat then
                            if (1 <=? index)%nat then capture cs index +:+ go t''
                            else String "$" (String d (String d2 (go t'')))
                          else one_digit cs m d n1 (go t')
                      end
                  end
              end
        end
  end.

(** *** [String.prototype.replace] with a global pattern

    [before] is the input up to the current position, [s] the input from it.
    [skip] counts the characters of a match that are still to be passed
    over.  An empty match copies one character and moves on.  The pattern is
    tried once more at the end of the input. *)
Fixpoint replace_from (r : regex) (template : string)
    (before s : string) (skip : nat) {struct s} : string :=
  match skip with
  | S n =>
      match s with
      | String c s' => replace_from r template (snoc before c) s' n
      | EmptyString => EmptyString
      end
  | O =>
      match exec r s with
      | Some st =>
          GetSubstitution (consumed st) before (rest st) (caps st)
            (group_count r) template +:+
          match s with
          | String c s' =>
              match consumed st with
              | EmptyString =>
                  String c (replace_from r template (snoc before c) s' 0)
              | String _ m' =>
                  replace_from r template (snoc before c) s' (String.length m')
              end
          | EmptyString => EmptyString
          end
      | None =>
          match s with
          | String c s' => String c (replace_from r template (snoc before c) s' 0)
          | EmptyString => EmptyString
          end
      end
  end.

Definition replace (r : regex) (template : string) (s : string) : string :=
  replace_from r template EmptyString s 0.

End Regex.

(** ** fixRelativePaths *)

Import Regex.

Definition quotes : cclass := OneOf (String dquote "'").
Definition not_quotes : cclass := NoneOf (String dquote "'").

(** [https?:\/\/] *)
Definition absolute_url : regex :=
  Seq (Lit "http") (Seq (Opt (Lit "s")) (Lit "://")).

(** The pattern of each of the four replacements.  Group 1 is the tag
    opener, any characters other than the closing angle bracket, the
    attribute name with its equals sign, and a quote; then the negative
    lookahead; group 2 is the longest run of characters that are not quotes;
    group 3 is a quote.  A quote is the double or the single one, and the
    closing quote need not be the opening one. *)
Definition attribute_pattern (tag attr : string) (exclude : regex) : regex :=
  Seq (Group 1 (Seq (Lit ("<" +:+ tag))
               (Seq (Star (NoneOf ">"))
               (Seq (Lit (attr +:+ "=")) (Class quotes)))))
 (Seq (NegLookahead exclude)
 (Seq (Group 2 (Star not_quotes))
      (Group 3 (Class quotes)))).

Definition link_href : regex := attribute_pattern "link" "href" absolute_url.
Definition script_src : regex := attribute_pattern "script" "src" absolute_url.
Definition img_src : regex := attribute_pattern "img" "src" absolute_url.
Definition a_href : regex :=
  attribute_pattern "a" "href" (Alt absolute_url (Lit "#")).

(** The template literal [`$1${basePath}$2$3`]. *)
Definition template (basePath : string) : string := "$1" +:+ basePath +:+ "$2$3".

Definition fixRelativePaths (html basePath : string) : string :=
  let html := replace link_href (template basePath) html in
  let html := replace script_src (template basePath) html in
  let html := replace img_src (template basePath) html in
  let html := replace a_href (template basePath) html in
  html.

(** ** The object store and the handlers' monad *)

(** A stored object: its content and the [contentType] of the [httpMetadata]
    it was written with, when there was one. *)
Record R2Object : Type := mkObject {
  body : string;
  contentType : option jsval
}.

(** A computation of the handlers: it reads and writes the bucket, and it
    returns a value or throws.  The bucket survives a throw. *)
Definition M (A : Type) : Type := gmap string R2Object -> result A * gmap string R2Object.

Definition ret {A} (a : A) : M A := fun b => (Ok a, b).

Definition throw {A} (e : exn) : M A := fun b => (Throw e, b).

Definition bind {A B} (m : M A) (k : A -> M B) : M B :=
  fun b =>
    match m b with
    | (Ok a, b') => k a b'
    | (Throw e, b') => (Throw e, b')
    end.

(** [try { m } catch (error) { handler(error) }] *)
Definition try_catch {A} (m : M A) (handler : exn -> M A) : M A :=
  fun b =>
    match m b with
    | (Ok a, b') => (Ok a, b')
    | (Throw e, b') => handler e b'
    end.

Definition lift {A} (r : result A) : M A := fun b => (r, b).

(** [env.WEBSITES_BUCKET.put(key, value, { httpMetadata: { contentType } })],
    and [put(key, value)] when [ct] is [None]. *)
Definition bucket_put (key value : string) (ct : option jsval) : M unit :=
  fun b => (Ok tt, <[key := mkObject value ct]> b).

(** [env.WEBSITES_BUCKET.get(key)]: the object, or [null]. *)
Definition bucket_get (key : string) : M (option R2Object) :=
  fun b => (Ok (b !! key), b).

Notation "'let*' x := m 'in' k" := (bind m (fun x => k))
  (at level 10, x name, m at level 200, k at level 200).
Notation "'await' m 'in' k" := (bind m (fun _ => k))
  (at level 10, m at level 200, k at level 200).

(** ** extractZip *)

(** One value of [zip.files]: the [dir] flag and the outcome of
    [zipEntry.async('uint8array')], which throws when the member cannot be
    decompressed. *)
Record ZipObject : Type := mkZipObject {
  dir : bool;
  async_uint8array : result string
}.

(** The uploaded [File]: its declared type and size, and the outcome of
    [JSZip.loadAsync] on its bytes, as [Object.entries(zip.files)] lists it.
    [zip.files] is an object, so the names of a listing are pairwise
    distinct. *)
Record File : Type := mkFile {
  file_type : string;
  file_size : Z;
  loadAsync : result (list (string * ZipObject))
}.

Definition r2Key (siteId filename : string) : string :=
  "sites/" +:+ siteId +:+ "/" +:+ filename.

(** The [for ... of] loop, with [files] the array built so far. *)
Fixpoint extractZip_loop (entries : list (string * ZipObject)) (siteId : string)
    (files : list FileEntry) : M (list FileEntry) :=
  match entries with
  | [] => ret files
  | (filename, zipEntry) :: entries' =>
      if negb (dir zipEntry) then
        let* fileContent := lift (async_uint8array zipEntry) in
        let fileType := getMimeType filename in
        await bucket_put (r2Key siteId filename) fileContent (Some fileType) in
        extractZip_loop entries' siteId
          (files ++ [mkFileEntry filename fileType (String.length fileContent)
                       (r2Key siteId filename)])
      else extractZip_loop entries' siteId files
  end.

Definition extractZip (file : File) (siteId : string) : M (list FileEntry) :=
  let* zip_files := lift (loadAsync file) in
  extractZip_loop zip_files siteId [].

(** ** generateSiteId *)

Definition chars : string := "abcdefghijklmnopqrstuvwxyz0123456789".

(** [chars.charAt(i)] *)
Definition charAt (i : nat) (s : string) : string :=
  match String.get i s with
  | Some c => String c EmptyString
  | None => EmptyString
  end.

(** [rand n] is the value of [Math.floor(Math.random() * chars.length)] at the
    [n]-th call of [Math.random]; it is below [chars.length].  [start] is the
    number of calls made before. *)
Fixpoint generateSiteId_loop (rand : nat -> nat) (start : nat) (i : nat) : string :=
  match i with
  | O => EmptyString
  | S i' => charAt (rand start mod String.length chars) chars +:+
            generateSiteId_loop rand (S start) i'
  end.

Definition generateSiteId (rand : nat -> nat) (start : nat) : string :=
  generateSiteId_loop rand start 8.

(** ** Responses *)

(** The data handed to [JSON.stringify]. *)
#[local] Unset Elimination Schemes.
Inductive jsdata : Type :=
  | DStr (s : string)
  | DNum (n : Z)
  | DBool (b : bool)
  | DVal (v : jsval)
  | DArr (items : list jsdata)
  | DObj (fields : list (string * jsdata)).
#[local] Set Elimination Schemes.

Record Response : Type := mkResponse {
  status : nat;
  headers : list (string * jsval);
  response_body : string
}.

(** [headers.set(name, value)] *)
Fixpoint headers_set (key : string) (value : jsval) (hs : list (string * jsval))
    : list (string * jsval) :=
  match hs with
  | [] => [(key, value)]
  | (k, v) :: hs' =>
      if String.eqb k key then (k, value) :: hs'
      else (k, v) :: headers_set key value hs'
  end.

Fixpoint headers_get (key : string) (hs : list (string * jsval)) : option jsval :=
  match hs with
  | [] => None
  | (k, v) :: hs' => if String.eqb k key then Some v else headers_get key hs'
  end.

(** [object.writeHttpMetadata(headers)]: the stored content type, when there
    is one, replaces the header. *)
Definition writeHttpMetadata (object : R2Object) (hs : list (string * jsval))
    : list (string * jsval) :=
  match contentType object with
  | Some ct => headers_set "Content-Type" ct hs
  | None => hs
  end.

(** [a || b] on strings: the empty string is falsy. *)
Definition or_string (a b : string) : string :=
  match a with
  | EmptyString => b
  | _ => a
  end.

Definition nonempty (s : string) : bool :=
  match s with
  | EmptyString => false
  | _ => true
  end.

(** ** serveHostedSite *)

(** [pathname.split('/').filter(p => p)] *)
Definition pathParts (pathname : string) : list string :=
  List.filter nonempty (Js.split "/" pathname).

(** [pathParts[1]] inside a template literal: a missing element prints as
    [undefined]. *)
Definition siteId_of (pathname : string) : string :=
  List.nth 1 (pathParts pathname) "undefined".

(** [pathParts.slice(2).join('/') || 'index.html'] *)
Definition requestedFile_of (pathname : string) : string :=
  or_string (Js.join "/" (Js.slice 2 (pathParts pathname))) "index.html".

Definition not_found : Response := mkResponse 404 [] "File not found".
Definition serve_error : Response := mkResponse 500 [] "Error serving site".

Definition serveHostedSite (pathname : string) : M Response :=
  try_catch
    (let siteId := siteId_of pathname in
     let requestedFile := requestedFile_of pathname in
     let fileKey := r2Key siteId requestedFile in
     let* object := bucket_get fileKey in
     match object with
     | Some object =>
         let contentType := getMimeType requestedFile in
         let headers := headers_set "Content-Type" contentType [] in
         let headers := headers_set "Cache-Control" (VStr "public, max-age=3600") headers in
         let* is_html_type := lift (includes_val "html" contentType) in
         if is_html_type then
           let content := body object in
           let content := fixRelativePaths content ("/s/" +:+ siteId +:+ "/") in
           ret (mkResponse 200 headers content)
         else
           ret (mkResponse 200 (writeHttpMetadata object headers) (body object))
     | None =>
         if negb (String.eqb requestedFile "index.html") then
           let* indexObject := bucket_get (r2Key siteId "index.html") in
           match indexObject with
           | Some indexObject =>
               let content := body indexObject in
               let content := fixRelativePaths content ("/s/" +:+ siteId +:+ "/") in
               ret (mkResponse 200 [("Content-Type", VStr "text/html")] content)
           | None => ret not_found
           end
         else ret not_found
     end)
    (fun _ => ret serve_error).

(** ** handleZipUpload *)

Section Upload.

(** What the handler takes from its surroundings: [JSON.stringify],
    [error.message], [formatBytes] (floating point), the clock
    ([new Date().toISOString()]) and the draws of [Math.random]. *)
Variable JSON_stringify : jsdata -> string.
Variable error_message : exn -> string.
Variable formatBytes : Z -> string.
Variable now : string.
Variable rand : nat -> nat.

(** The request: its [content-type] header, the [zipfile] and [siteName]
    fields of its form, and the origin of its URL.  [env.MAX_FILE_SIZE]
    enters as the result of [parseInt], [None] for [NaN]. *)
Record Request : Type := mkRequest {
  content_type : option string;
  zipfile : option File;
  siteName : option string;
  origin : string
}.

Definition jsonResponse (data : jsdata) (status : nat) : Response :=
  mkResponse status
    [("Content-Type", VStr "application/json");
     ("Access-Control-Allow-Origin", VStr "*")]
    (JSON_stringify data).

Definition file_data (f : FileEntry) : jsdata :=
  DObj [("name", DStr (name f)); ("type", DVal (type f));
        ("size", DNum (Z.of_nat (size f))); ("path", DStr (path f))].

Definition siteConfig (siteId name : string) (files : list FileEntry)
    (entryPoint origin : string) : jsdata :=
  DObj [("id", DStr siteId);
        ("name", DStr name);
        ("files", DArr (List.map file_data files));
        ("entryPoint", DStr entryPoint);
        ("createdAt", DStr now);
        ("url", DStr (origin +:+ "/s/" +:+ siteId));
        ("directUrl", DStr (origin +:+ "/s/" +:+ siteId +:+ "/" +:+ entryPoint))].

Definition config_key (siteId : string) : string := r2Key siteId "config.json".

Definition handleZipUpload (request : Request) (MAX_FILE_SIZE : option Z) : M Response :=
  try_catch
    (match content_type request with
     | None => throw TypeError
     | Some contentType =>
         if negb (Js.includes "multipart/form-data" contentType) then
           ret (jsonResponse (DObj [("error", DStr "Invalid content type")]) 400)
         else
           (* siteName: the form field, or a generated id when it is missing
              or empty *)
           let '(siteName, drawn) :=
             match siteName request with
             | Some (String c n) => (String c n, 0)
             | _ => (generateSiteId rand 0, 8)
             end in
           match zipfile request with
           | None => ret (jsonResponse (DObj [("error", DStr "Only ZIP files allowed")]) 400)
           | Some file =>
               if negb (String.eqb (file_type file) "application/zip") then
                 ret (jsonResponse (DObj [("error", DStr "Only ZIP files allowed")]) 400)
               else
                 let maxSize :=
                   match MAX_FILE_SIZE with
                   | Some n => if Z.eqb n 0 then (10 * 1024 * 1024)%Z else n
                   | None => (10 * 1024 * 1024)%Z
                   end in
                 if (maxSize <? file_size file)%Z then
                   ret (jsonResponse
                          (DObj [("error", DStr ("File too large. Max " +:+ formatBytes maxSize))])
                          400)
                 else
                   let siteId := generateSiteId rand drawn in
                   let* extractedFiles := extractZip file siteId in
                   let* entryPoint := lift (findEntryPoint extractedFiles) in
                   let config := siteConfig siteId siteName extractedFiles entryPoint
                                   (origin request) in
                   await bucket_put (config_key siteId) (JSON_stringify config) None in
                   ret (jsonResponse
                          (DObj [("success", DBool true);
                                 ("message", DStr "Website created successfully!");
                                 ("site", config);
                                 ("files",
                                  DArr (List.map (fun f =>
                                    DObj [("name", DStr (name f));
                                          ("type", DVal (type f));
                                          ("size", DNum (Z.of_nat (size f)));
                                          ("url", DStr (origin request +:+ "/s/" +:+ siteId
                                                        +:+ "/" +:+ name f))])
                                    extractedFiles))])
                          200)
           end
     end)
    (fun error => ret (jsonResponse (DObj [("error", DStr (error_message error))]) 500)).

End Upload.

(** ** Documents

    The contract of the path rewriter speaks of attribute values in tags.  A
    document is a sequence of text, opening tags with their attributes, and
    closing tags; [render] writes it the usual way, every value between
    double quotes. *)

Module Html.

Definition Q : string := String dquote EmptyString.

Inductive node : Type :=
  | Text (s : string)
  | Open (tag : string) (attrs : list (string * string))
  | Close (tag : string).

Definition render_attr (kv : string * string) : string :=
  " " +:+ fst kv +:+ "=" +:+ Q +:+ snd kv +:+ Q.

Fixpoint render_attrs (attrs : list (string * string)) : string :=
  match attrs with
  | [] => EmptyString
  | kv :: attrs' => render_attr kv +:+ render_attrs attrs'
  end.

Definition render_node (n : node) : string :=
  match n with
  | Text s => s
  | Open tag attrs => "<" +:+ tag +:+ render_attrs attrs +:+ ">"
  | Close tag => "</" +:+ tag +:+ ">"
  end.

Fixpoint render (doc : list node) : string :=
  match doc with
  | [] => EmptyString
  | n :: doc' => render_node n +:+ render doc'
  end.

(** *** The rewriter as the specification words it

    The values of four contexts are prefixed: the [href] of a [link], the
    [src] of a [script], the [src] of an [img] and the [href] of an [a]; a
    value that begins with [http://] or [https://] is left alone, and so is
    the [href] of an [a] that begins with [#]. *)

Definition context_attr (tag : string) : option string :=
  if String.eqb tag "link" then Some "href"
  else if String.eqb tag "script" then Some "src"
  else if String.eqb tag "img" then Some "src"
  else if String.eqb tag "a" then Some "href"
  else None.

Definition is_absolute (v : string) : bool :=
  Js.startsWith "http://" v || Js.startsWith "https://" v.

Definition left_untouched (tag v : string) : bool :=
  is_absolute v || (String.eqb tag "a" && Js.startsWith "#" v).

Definition in_context (tag attr : string) : bool :=
  match context_attr tag with
  | Some a => String.eqb attr a
  | None => false
  end.

Definition rewrite_value (basePath tag attr v : string) : string :=
  if in_context tag attr && negb (left_untouched tag v) then basePath +:+ v else v.

Definition rewrite_node (basePath : string) (n : node) : node :=
  match n with
  | Open tag attrs =>
      Open tag (List.map (fun kv => (fst kv, rewrite_value basePath tag (fst kv) (snd kv))) attrs)
  | _ => n
  end.

Definition rewrite_doc (basePath : string) (doc : list node) : list node :=
  List.map (rewrite_node basePath) doc.

(** *** Documents on which the patterns and the contract agree *)

(** No character of [cs] occurs in [s]. *)
Fixpoint free_of (cs : string) (s : string) : bool :=
  match s with
  | EmptyString => true
  | String c s' => negb (mem c cs) && free_of cs s'
  end.

(** The characters that delimit tags and values. *)
Definition markup : string := String "<" (String ">" (String dquote "'")).

(** [attr=] and a quote start at the head of [s]. *)
Definition hit_at (attr s : string) : bool :=
  Js.startsWith (attr +:+ "=" +:+ Q) s || Js.startsWith (attr +:+ "='") s.

(** The number of places of [s] where [attr=] and a quote start. *)
Fixpoint count_hits (attr s : string) : nat :=
  (if hit_at attr s then 1 else 0) +
  match s with
  | EmptyString => 0
  | String _ s' => count_hits attr s'
  end.

Definition count_named (attr : string) (attrs : list (string * string)) : nat :=
  List.length (List.filter (fun kv => String.eqb (fst kv) attr) attrs).

Definition openers : list string := ["link"; "script"; "img"; "a"].

(** A plain node: text without an opening angle bracket; names and values
    without markup characters; a tag of one of the four contexts carries its
    attribute at most once, and [attr=] followed by a quote is written
    nowhere else in the tag; any other tag does not begin with the name of
    one of the four. *)
Definition plain_node (n : node) : bool :=
  match n with
  | Text s => free_of "<" s
  | Close tag => free_of "<" tag
  | Open tag attrs =>
      free_of markup tag &&
      forallb (fun kv => free_of markup (fst kv) && free_of markup (snd kv)) attrs &&
      match context_attr tag with
      | Some attr =>
          (count_named attr attrs <=? 1)%nat &&
          (count_hits attr (render_attrs attrs) =? count_named attr attrs)%nat
      | None => forallb (fun opener => negb (Js.startsWith opener tag)) openers
      end
  end.

Definition plain_doc (doc : list node) : bool := forallb plain_node doc.

(** A plain base path: no dollar sign (which a replacement template reads as
    a reference) and no opening angle bracket. *)
Definition plain_base (basePath : string) : bool := free_of "$<" basePath.

End Html.

Import Html.

(** ** Functions used to state the properties *)

(** The test of [findEntryPoint]'s filter on an entry whose type is a
    string. *)
Definition html_like (f : FileEntry) : bool :=
  match type f with
  | VStr t => Js.includes "html" t
  | _ => false
  end || Js.endsWith ".html" (name f).

Definition is_string (v : jsval) : bool :=
  match v with
  | VStr _ => true
  | _ => false
  end.

(** The entry that one pass of the extraction loop pushes. *)
Definition entry_for (siteId filename fileContent : string) : FileEntry :=
  mkFileEntry filename (getMimeType filename) (String.length fileContent)
    (r2Key siteId filename).

Definition is_file (member : string * ZipObject) : bool := negb (dir (snd member)).

(** What the loop appends to [files] over a listing, up to the first member
    that cannot be decompressed. *)
Fixpoint extracted (siteId : string) (members : list (string * ZipObject)) : list FileEntry :=
  match members with
  | [] => []
  | (filename, zipEntry) :: members' =>
      if dir zipEntry then extracted siteId members'
      else match async_uint8array zipEntry with
           | Ok c => entry_for siteId filename c :: extracted siteId members'
           | Throw _ => []
           end
  end.

(** The bucket the loop leaves, up to the first member that cannot be
    decompressed. *)
Fixpoint stored (siteId : string) (members : list (string * ZipObject))
    (b : gmap string R2Object) : gmap string R2Object :=
  match members with
  | [] => b
  | (filename, zipEntry) :: members' =>
      if dir zipEntry then stored siteId members' b
      else match async_uint8array zipEntry with
           | Ok c =>
               stored siteId members'
                 (<[r2Key siteId filename := mkObject c (Some (getMimeType filename))]> b)
           | Throw _ => b
           end
  end.

Definition decompresses (member : string * ZipObject) : Prop :=
  dir (snd member) = false -> exists c, async_uint8array (snd member) = Ok c.

(** The response to a hit on an HTML file. *)
Definition html_response (contentType : jsval) (content siteId : string) : Response :=
  mkResponse 200
    [("Content-Type", contentType); ("Cache-Control", VStr "public, max-age=3600")]
    (fixRelativePaths content ("/s/" +:+ siteId +:+ "/")).

(** One segment of a path: not empty, no slash. *)
Definition segment (s : string) : bool := nonempty s && free_of "/" s.

(** *** The pattern of a replacement, cut at its star

    What the pattern does once its star has stopped: the attribute name with
    its equals sign and a quote, which close group 1, then the lookahead and
    groups 2 and 3. *)
Definition after_group1 (exclude : regex) : cont :=
  fun st =>
    rmatch (Seq (NegLookahead exclude)
           (Seq (Group 2 (Star not_quotes)) (Group 3 (Class quotes))))
      (mkState (EmptyString +:+ consumed st) (rest st) (<[1 := consumed st]> (caps st)))
      Some.

Definition attr_tail (attr : string) (exclude : regex) : cont :=
  fun st =>
    match_lit (attr +:+ "=") st (fun st' => match_class quotes st' (after_group1 exclude)).

(** The lookahead of a pattern, as a test on a state. *)
Definition lookahead_hit (exclude : regex) (st : mstate) : bool :=
  match rmatch exclude st Some with
  | Some _ => true
  | None => false
  end.

(** The characters of the class [quotes]. *)
Definition quote_chars : string := String dquote "'".

(** One of the four replacements on a document: the values named [attr] of
    the tags [tag], but for those the test [untouched] keeps. *)
Definition rewrite_attr (attr : string) (untouched : string -> bool) (basePath : string)
    (kv : string * string) : string * string :=
  if String.eqb (fst kv) attr && negb (untouched (snd kv))
  then (fst kv, basePath +:+ snd kv) else kv.

Definition rewrite_pass (tag attr : string) (untouched : string -> bool)
    (basePath : string) (n : node) : node :=
  match n with
  | Open t attrs =>
      if String.eqb t tag
      then Open t (List.map (rewrite_attr attr untouched basePath) attrs)
      else n
  | _ => n
  end.

(** What one replacement needs of a node: no opening angle bracket inside
    it; for a tag of the replacement, what [plain_node] asks of it; for any
    other tag, a name that does not begin with the tag of the replacement. *)
Definition pass_ok (tag attr : string) (n : node) : bool :=
  match n with
  | Text s => free_of "<" s
  | Close t => free_of "<" t
  | Open t attrs =>
      free_of "<" t && free_of "<" (render_attrs attrs) &&
      if String.eqb t tag then
        free_of ">" (render_attrs attrs) &&
        forallb (fun kv => free_of quote_chars (snd kv)) attrs &&
        (count_named attr attrs <=? 1)%nat &&
        (count_hits attr (render_attrs attrs) =? count_named attr attrs)%nat
      else negb (Js.startsWith tag t)
  end.

(** ** Archives, buckets and documents of the examples *)

Definition request_path_of (pathname : string) : string :=
  Js.join "/" (Js.slice 2 (pathParts pathname)).

(** One page whose name is [Index.HTML]. *)
Definition casing_archive : File :=
  mkFile "application/zip" 120
    (Ok [("Index.HTML", mkZipObject false (Ok "<html></html>"))]).

(** One file whose name is [constructor]. *)
Definition inherited_archive : File :=
  mkFile "application/zip" 120
    (Ok [("constructor", mkZipObject false (Ok "function"))]).

(** A directory and two files. *)
Definition small_members : list (string * ZipObject) :=
  [("css/", mkZipObject true (Ok EmptyString));
   ("css/style.css", mkZipObject false (Ok "body{}"));
   ("index.html", mkZipObject false (Ok "<p>hi</p>"))].

Definition logo_members : list (string * ZipObject) :=
  [("logo.svg", mkZipObject false (Ok "<svg/>"))].

(** A site that stores its index only. *)
Definition index_only : gmap string R2Object :=
  {[ "sites/abc12345/index.html" := mkObject "<p>home</p>" (Some (VStr "text/html")) ]}.

(** A stylesheet and a page, as extraction stores them. *)
Definition two_files : gmap string R2Object :=
  {[ "sites/abc12345/style.css" := mkObject "body{}" (Some (VStr "text/css"));
     "sites/abc12345/page.html" := mkObject "<img src='a.png'>" (Some (VStr "text/html")) ]}.

(** A stylesheet stored with the content type of plain text. *)
Definition mistagged : gmap string R2Object :=
  {[ "sites/abc12345/a.css" := mkObject "body{}" (Some (VStr "text/plain")) ]}.

(** An image tag with a second attribute whose name ends in [src]. *)
Definition lazy_image : list node :=
  [Open "img" [("src", "a.png"); ("data-src", "b.png")]].

(** A tag whose name begins with the name of the anchor tag. *)
Definition area_tag : list node := [Open "area" [("href", "x.html")]].

(** An anchor with a closing angle bracket inside a value. *)
Definition bracket_value : list node :=
  [Open "a" [("title", "a>b"); ("href", "x.html")]].

Definition one_image : list node := [Open "img" [("src", "a.png")]].

(** An upload of a page and of a file named [config.json]. *)
Definition demo_stringify (d : jsdata) : string :=
  match d with
  | DObj (("id", DStr id) :: _) => "{id:" +:+ id +:+ "}"
  | _ => "{}"
  end.

Definition demo_request : Request :=
  mkRequest (Some "multipart/form-data; boundary=x")
    (Some (mkFile "application/zip" 2048
             (Ok [("index.html", mkZipObject false (Ok "<p>home</p>"));
                  ("config.json", mkZipObject false (Ok "{mine}"))])))
    (Some "demo") "https://host.example".

Definition demo_upload : result Response * gmap string R2Object :=
  handleZipUpload demo_stringify (fun _ => "error") (fun _ => "10 MB")
    "2024-01-01T00:00:00.000Z" (fun n => n) demo_request None ∅.

(** An upload whose archive holds folders only. *)
Definition folders_request : Request :=
  mkRequest (Some "multipart/form-data; boundary=x")
    (Some (mkFile "application/zip" 120
             (Ok [("css/", mkZipObject true (Ok EmptyString));
                  ("img/", mkZipObject true (Ok EmptyString))])))
    None "https://host.example".

(** An upload whose archive has a member that cannot be decompressed. *)
Definition broken_request : Request :=
  mkRequest (Some "multipart/form-data; boundary=x")
    (Some (mkFile "application/zip" 300
             (Ok (logo_members ++ ("broken.css", mkZipObject false (Throw DecodeError))
                    :: [("index.html", mkZipObject false (Ok "<p>home</p>"))])%list)))
    (Some "demo") "https://host.example".

(** ** listSites *)

Section Listing.

(** [JSON.parse] throws on text that is no JSON.  [list_limit] is the number
    of objects that one call of [list] returns at most. *)
Variable JSON_stringify : jsdata -> string.
Variable JSON_parse : string -> result jsdata.
Variable list_limit : nat.

(** [env.WEBSITES_BUCKET.list({ prefix })]: the keys that begin with the
    prefix, in the order of the keys, up to the limit of one call. *)
Definition bucket_list (prefix : string) : M (list string) :=
  fun b =>
    (Ok (List.firstn list_limit
           (List.filter (Js.startsWith prefix)
              (merge_sort String.le (List.map fst (map_to_list b))))), b).

(** The loop over [list.objects], with [sites] the array built so far. *)
Fixpoint listSites_loop (keys : list string) (sites : list jsdata) : M (list jsdata) :=
  match keys with
  | [] => ret sites
  | key :: keys' =>
      if Js.endsWith "config.json" key then
        let* config := bucket_get key in
        match config with
        | Some config =>
            let* parsed := lift (JSON_parse (body config)) in
            listSites_loop keys' (sites ++ [parsed])
        | None => listSites_loop keys' sites
        end
      else listSites_loop keys' sites
  end.

Definition listSites : M Response :=
  let* objects := bucket_list "sites/" in
  let* sites := listSites_loop objects [] in
  ret (jsonResponse JSON_stringify (DObj [("sites", DArr sites)]) 200).

End Listing.

(** ** fetch *)

Section Worker.

Variable JSON_stringify : jsdata -> string.
Variable JSON_parse : string -> result jsdata.
Variable error_message : exn -> string.
Variable formatBytes : Z -> string.
Variable now : string.
Variable rand : nat -> nat.
Variable list_limit : nat.

(** The two handlers that the router names and this file does not hold. *)
Variable createSiteFromZip : Request -> M Response.
Variable serveFrontendUI : M Response.

Definition corsHeaders : list (string * jsval) :=
  [("Access-Control-Allow-Origin", VStr "*");
   ("Access-Control-Allow-Methods", VStr "GET, POST, OPTIONS");
   ("Access-Control-Allow-Headers", VStr "Content-Type")].

(** The request enters as its method, the path of its URL, and what
    [handleZipUpload] takes of it. *)
Definition fetch (method pathname : string) (request : Request)
    (MAX_FILE_SIZE : option Z) : M Response :=
  if String.eqb method "OPTIONS" then
    ret (mkResponse 200 corsHeaders EmptyString)
  else if String.eqb pathname "/api/upload" && String.eqb method "POST" then
    handleZipUpload JSON_stringify error_message formatBytes now rand request MAX_FILE_SIZE
  else if String.eqb pathname "/api/create-site" && String.eqb method "POST" then
    createSiteFromZip request
  else if String.eqb pathname "/api/sites" && String.eqb method "GET" then
    listSites JSON_stringify JSON_parse list_limit
  else if Js.startsWith "/s/" pathname then
    serveHostedSite pathname
  else serveFrontendUI.

End Worker.

(** ** Functions used to state the further properties *)

(** The text after the last dot of a file name, in lower case. *)
Definition extension (filename : string) : string :=
  Js.toLowerCase (Js.pop (Js.split "." filename)).

(** Every character of [s] is one of [cs]. *)
Fixpoint made_of (cs : string) (s : string) : bool :=
  match s with
  | EmptyString => true
  | String c s' => mem c cs && made_of cs s'
  end.

(** The identifier that [handleZipUpload] generates for a request: the
    draws it uses come after the eight of a generated site name. *)
Definition upload_siteId (rand : nat -> nat) (request : Request) : string :=
  generateSiteId rand
    match siteName request with
    | Some (String _ _) => 0
    | _ => 8
    end.

(** The keys of a site. *)
Definition under_site (siteId key : string) : bool :=
  Js.startsWith ("sites/" +:+ siteId +:+ "/") key.

(** One copy of [base] put somewhere into [s]. *)
Definition insertion (base s s' : string) : Prop :=
  exists p q, s = p +:+ q /\ s' = p +:+ base +:+ q.

(** Any number of copies of [base] put into [s], one after the other. *)
Definition insertions (base : string) : string -> string -> Prop :=
  rtc (insertion base).

(** The keys of the bucket that begin with a prefix, in the order of the
    keys: what [list] returns when the limit of one call is not reached. *)
Definition listed (prefix : string) (b : gmap string R2Object) : list string :=
  List.filter (Js.startsWith prefix)
    (merge_sort String.le (List.map fst (map_to_list b))).

(** The object at a key, if there is one, holds text that [JSON.parse]
    takes. *)
Definition parses (JSON_parse : string -> result jsdata) (b : gmap string R2Object)
    (key : string) : bool :=
  match b !! key with
  | Some object =>
      match JSON_parse (body object) with
      | Ok _ => true
      | Throw _ => false
      end
  | None => true
  end.

(** A stand-in for [JSON.parse] in the examples: text that begins with a
    brace is taken, any other text is refused. *)
Definition demo_parse (text : string) : result jsdata :=
  if Js.startsWith "{" text then Ok (DStr text) else Throw DecodeError.

(** A site with its manifest and the settings file of a compiler. *)
Definition settings_site : gmap string R2Object :=
  {[ "sites/abc12345/config.json" := mkObject "{id:abc12345}" None;
     "sites/abc12345/tsconfig.json" :=
       mkObject "{strict:true}" (Some (VStr "application/json")) ]}.

(** The same site, the settings file beginning with a comment. *)
Definition commented_site : gmap string R2Object :=
  {[ "sites/abc12345/config.json" := mkObject "{id:abc12345}" None;
     "sites/abc12345/tsconfig.json" :=
       mkObject "// settings" (Some (VStr "application/json")) ]}.

(** An upload of a page and a settings file that begins with a comment. *)
Definition commented_request : Request :=
  mkRequest (Some "multipart/form-data; boundary=x")
    (Some (mkFile "application/zip" 2048
             (Ok [("index.html", mkZipObject false (Ok "<p>home</p>"));
                  ("tsconfig.json", mkZipObject false (Ok "// settings"))])))
    (Some "demo") "https://host.example".

Definition commented_upload : result Response * gmap string R2Object :=
  handleZipUpload demo_stringify (fun _ => "error") (fun _ => "10 MB")
    "2024-01-01T00:00:00.000Z" (fun n => n) commented_request None ∅.

(** The limit that [handleZipUpload] compares the size of the file with. *)
Definition maxSize_of (MAX_FILE_SIZE : option Z) : Z :=
  match MAX_FILE_SIZE with
  | Some n => if Z.eqb n 0 then (10 * 1024 * 1024)%Z else n
  | None => (10 * 1024 * 1024)%Z
  end.

(** The file of a request that passes the checks of [handleZipUpload]: a
    multipart content type, a file of type [application/zip], a size within
    the limit. *)
Definition accepted (request : Request) (MAX_FILE_SIZE : option Z) : option File :=
  match content_type request, zipfile request with
  | Some contentType, Some file =>
      if Js.includes "multipart/form-data" contentType
         && String.eqb (file_type file) "application/zip"
         && negb (maxSize_of MAX_FILE_SIZE <? file_size file)%Z
      then Some file else None
  | _, _ => None
  end.

(** The name that [handleZipUpload] gives the site. *)
Definition upload_name (rand : nat -> nat) (request : Request) : string :=
  match siteName request with
  | Some (String c n) => String c n
  | _ => generateSiteId rand 0
  end.

(** * Properties *)

(** ** Entry point resolution *)

Lemma some_named_elim (entry : string) (files : list FileEntry) :
  some_named entry files = true ->
  exists f, In f files /\ Js.toLowerCase (name f) = entry.
Proof.
  unfold some_named. rewrite existsb_exists.
  intros [f [Hin Heq]]. exists f. split; [exact Hin|].
  now apply String.eqb_eq.
Qed.

(** When a name of the priority list is matched, the result is that name as
    the list writes it, which is the lower-cased name of some entry. *)
Lemma findEntryPoint_priority (files : list FileEntry) (entry : string) :
  List.find (fun entry => some_named entry files) entryPoints = Some entry ->
  findEntryPoint files = Ok entry /\
  exists f, In f files /\ Js.toLowerCase (name f) = entry.
Proof.
  intros Hfind. unfold findEntryPoint. rewrite Hfind. split; [reflexivity|].
  apply find_some in Hfind. destruct Hfind as [_ Hsome].
  now apply some_named_elim.
Qed.

(** C1 (the code departs from the claim). For an archive whose only file is
    [Index.HTML], [findEntryPoint] returns the literal [index.html] of its
    priority list; that is the name of no entry, and the request for the
    site's file of that name is answered with 404. *)
Theorem findEntryPoint_returns_list_literal :
  exists files b,
    extractZip casing_archive "abc12345" ∅ = (Ok files, b) /\
    List.map name files = ["Index.HTML"] /\
    findEntryPoint files = Ok "index.html" /\
    ~ (exists f, In f files /\ name f = "index.html") /\
    serveHostedSite "/s/abc12345/index.html" b = (Ok not_found, b).
Proof.
  exists [entry_for "abc12345" "Index.HTML" "<html></html>"].
  exists (snd (extractZip casing_archive "abc12345" ∅)).
  split; [vm_compute; reflexivity|].
  split; [reflexivity|]. split; [reflexivity|]. split.
  - intros [f [[Hf | []] Hname]]. subst f. discriminate Hname.
  - vm_compute. reflexivity.
Qed.

Lemma filter_r_strings (files : list FileEntry) :
  Forall (fun f => is_string (type f) = true) files ->
  filter_r is_html files = Ok (List.filter html_like files).
Proof.
  induction 1 as [| f files Hf _ IH]; [reflexivity|].
  cbn [filter_r List.filter]. rewrite IH.
  unfold is_html, html_like. destruct (type f); try discriminate Hf.
  cbn. reflexivity.
Qed.

(** Without a match in the priority list, and with entries whose types are
    strings, the result is the name of the first entry that passes the
    filter, and the name of the first entry when none does. *)
Lemma findEntryPoint_fallback (first : FileEntry) (others : list FileEntry) :
  let files := first :: others in
  Forall (fun f => is_string (type f) = true) files ->
  List.find (fun entry => some_named entry files) entryPoints = None ->
  findEntryPoint files =
    Ok (match List.find html_like files with
        | Some f => name f
        | None => name first
        end).
Proof.
  intros files Hstr Hnone. unfold findEntryPoint. rewrite Hnone.
  rewrite (filter_r_strings files Hstr). cbn [rbind].
  assert (Hhd : forall l : list FileEntry,
             match List.filter html_like l with
             | f :: _ => Some f
             | [] => None
             end = List.find html_like l).
  { induction l as [| x l IH]; [reflexivity|].
    cbn. destruct (html_like x); [reflexivity | exact IH]. }
  rewrite <- (Hhd files).
  destruct (List.filter html_like files); reflexivity.
Qed.

Example findEntryPoint_About :
  findEntryPoint [entry_for "abc12345" "About.HTML" "<p>about</p>"] = Ok "About.HTML".
Proof. reflexivity. Qed.

Example findEntryPoint_readme :
  findEntryPoint [entry_for "abc12345" "readme.txt" "read me";
                  entry_for "abc12345" "photo.png" "PNG"] = Ok "readme.txt".
Proof. reflexivity. Qed.

(** C5 (the code departs from the claim). An archive whose only member is a
    file named [constructor] is extracted to one entry, no name of the
    priority list matches it, and [findEntryPoint] throws on it: the type
    that [getMimeType] gave the entry is not a string. *)
Theorem findEntryPoint_throws_on_inherited_type :
  exists files b,
    extractZip inherited_archive "abc12345" ∅ = (Ok files, b) /\
    files = [entry_for "abc12345" "constructor" "function"] /\
    getMimeType "constructor" = VObjectFunction /\
    List.find (fun entry => some_named entry files) entryPoints = None /\
    findEntryPoint files = Throw TypeError.
Proof.
  exists [entry_for "abc12345" "constructor" "function"].
  exists (snd (extractZip inherited_archive "abc12345" ∅)).
  split; [vm_compute; reflexivity|].
  split; [reflexivity|]. split; [reflexivity|]. split; reflexivity.
Qed.

(** C6 (as amended). On the empty sequence [findEntryPoint] returns no name:
    reading [name] of the missing first element throws a [TypeError]. *)
Theorem findEntryPoint_empty : findEntryPoint [] = Throw TypeError.
Proof. reflexivity. Qed.

(** C6 (as stated) fails: the error is not the distinguished
    [EmptySiteError]. *)
Lemma findEntryPoint_empty_not_EmptySiteError :
  findEntryPoint [] <> Throw EmptySiteError.
Proof. cbv. discriminate. Qed.

(** ** Extraction *)

Lemma append_inj_l (p a b : string) : p +:+ a = p +:+ b -> a = b.
Proof.
  induction p as [| c p IH]; intros H; [exact H|].
  apply IH. now inversion H.
Qed.

Lemma r2Key_inj (siteId n n' : string) : r2Key siteId n = r2Key siteId n' -> n = n'.
Proof.
  unfold r2Key. intros H.
  apply append_inj_l in H. apply append_inj_l in H. now apply append_inj_l in H.
Qed.

Lemma extractZip_loop_ok (siteId : string) (members : list (string * ZipObject)) :
  Forall decompresses members ->
  forall files b,
    extractZip_loop members siteId files b =
      (Ok (files ++ extracted siteId members)%list, stored siteId members b).
Proof.
  induction 1 as [| [n z] members Hd _ IH]; intros files b.
  - cbn. now rewrite app_nil_r.
  - cbn [extractZip_loop extracted stored]. unfold decompresses in Hd. cbn in Hd.
    destruct (dir z) eqn:Hdir; cbn [negb].
    + apply IH.
    + destruct (Hd eq_refl) as [c Hc]. rewrite Hc.
      unfold bind, lift, bucket_put. rewrite IH.
      now rewrite <- app_assoc.
Qed.

Lemma extractZip_loop_inv (siteId : string) (members : list (string * ZipObject)) :
  forall files b files' b',
    extractZip_loop members siteId files b = (Ok files', b') ->
    Forall decompresses members.
Proof.
  induction members as [| [n z] members IH]; intros files b files' b' H.
  - constructor.
  - cbn [extractZip_loop] in H.
    destruct (dir z) eqn:Hdir; cbn [negb] in H.
    + constructor; [|eapply IH; exact H].
      unfold decompresses. cbn. rewrite Hdir. discriminate.
    + unfold bind, lift, bucket_put in H.
      destruct (async_uint8array z) as [c|e] eqn:Hc; [|discriminate H].
      constructor; [|eapply IH; exact H].
      unfold decompresses. cbn. intros _. now exists c.
Qed.

Lemma extracted_names (siteId : string) (members : list (string * ZipObject)) :
  Forall decompresses members ->
  List.map name (extracted siteId members) = List.map fst (List.filter is_file members).
Proof.
  induction 1 as [| [n z] members Hd _ IH]; [reflexivity|].
  cbn [extracted List.filter]. unfold is_file at 1. unfold decompresses in Hd. cbn in *.
  destruct (dir z); cbn [negb]; [exact IH|].
  destruct (Hd eq_refl) as [c Hc]. rewrite Hc. cbn. now rewrite IH.
Qed.

Lemma extracted_In (siteId : string) (members : list (string * ZipObject)) (e : FileEntry) :
  In e (extracted siteId members) ->
  exists z c, In (name e, z) members /\ dir z = false /\
              async_uint8array z = Ok c /\ e = entry_for siteId (name e) c.
Proof.
  induction members as [| [n z] members IH]; [intros []|].
  cbn [extracted]. destruct (dir z) eqn:Hdir.
  - intros Hin. destruct (IH Hin) as (z' & c & H1 & H2).
    exists z', c. split; [now right | exact H2].
  - destruct (async_uint8array z) as [c|x] eqn:Hc; [|intros []].
    intros [Heq | Hin].
    + subst e. exists z, c. cbn. repeat split; try assumption. now left.
    + destruct (IH Hin) as (z' & c' & H1 & H2).
      exists z', c'. split; [now right | exact H2].
Qed.

Lemma stored_other (siteId : string) (members : list (string * ZipObject))
    (b : gmap string R2Object) (key : string) :
  (forall n, In n (List.map fst members) -> key <> r2Key siteId n) ->
  stored siteId members b !! key = b !! key.
Proof.
  revert b. induction members as [| [n z] members IH]; intros b Hfresh; [reflexivity|].
  cbn [stored].
  assert (Hrest : forall n', In n' (List.map fst members) -> key <> r2Key siteId n').
  { intros n' Hn'. apply Hfresh. now right. }
  destruct (dir z); [now apply IH|].
  destruct (async_uint8array z); [|reflexivity].
  rewrite IH by exact Hrest.
  apply lookup_insert_ne. intros Heq. apply (Hfresh n); [now left | now symmetry].
Qed.

Lemma stored_lookup (siteId : string) (members : list (string * ZipObject))
    (b : gmap string R2Object) (n : string) (z : ZipObject) (c : string) :
  NoDup (List.map fst members) ->
  Forall decompresses members ->
  In (n, z) members -> dir z = false -> async_uint8array z = Ok c ->
  stored siteId members b !! r2Key siteId n = Some (mkObject c (Some (getMimeType n))).
Proof.
  intros Hnd Hall. revert b.
  induction Hall as [| [n0 z0] members Hd _ IH]; intros b Hin Hdir Hc; [destruct Hin|].
  cbn [List.map fst] in Hnd. apply NoDup_cons in Hnd. destruct Hnd as [Hfresh Hnd].
  cbn [stored]. destruct Hin as [Heq | Hin].
  - inversion Heq; subst n0 z0. rewrite Hdir, Hc.
    rewrite stored_other.
    + apply lookup_insert_eq.
    + intros n' Hn' Hk. apply r2Key_inj in Hk. subst n'.
      apply Hfresh. now apply list_elem_of_In.
  - unfold decompresses in Hd. cbn in Hd.
    destruct (dir z0); [now apply IH|].
    destruct (Hd eq_refl) as [c0 Hc0]. rewrite Hc0. now apply IH.
Qed.



(** C9. After a successful extraction, reading the bucket at the path of an
    entry returns an object whose content is the decompressed content of the
    member of that name, and whose length is the size of the entry. *)
Theorem extractZip_round_trip (file : File) (siteId : string)
    (b b' : gmap string R2Object) (members : list (string * ZipObject))
    (files : list FileEntry) :
  loadAsync file = Ok members ->
  NoDup (List.map fst members) ->
  extractZip file siteId b = (Ok files, b') ->
  forall e, In e files ->
    exists object z,
      bucket_get (path e) b' = (Ok (Some object), b') /\
      In (name e, z) members /\
      async_uint8array z = Ok (body object) /\
      String.length (body object) = size e.
Proof.
  intros Hload Hnd Hrun e Hin.
  unfold extractZip, bind, lift in Hrun. rewrite Hload in Hrun.
  pose proof (extractZip_loop_inv _ _ _ _ _ _ Hrun) as Hall.
  rewrite (extractZip_loop_ok siteId members Hall) in Hrun.
  inversion Hrun; subst files b'. cbn [app] in Hin.
  destruct (extracted_In _ _ _ Hin) as (z & c & Hm & Hdir & Hc & He).
  exists (mkObject c (Some (getMimeType (name e)))), z.
  assert (Hp : path e = r2Key siteId (name e)) by (rewrite He; reflexivity).
  assert (Hs : size e = String.length c) by (rewrite He; reflexivity).
  unfold bucket_get. rewrite Hp.
  rewrite (stored_lookup siteId members b (name e) z c Hnd Hall Hm Hdir Hc).
  cbn [body]. now repeat split.
Qed.

(** C9 at an archive with one file. *)
Lemma extractZip_round_trip_witness :
  exists object z,
    bucket_get "sites/abc12345/logo.svg"
      (snd (extractZip (mkFile "application/zip" 90 (Ok logo_members)) "abc12345" ∅)) =
      (Ok (Some object),
       snd (extractZip (mkFile "application/zip" 90 (Ok logo_members)) "abc12345" ∅)) /\
    In ("logo.svg", z) logo_members /\
    async_uint8array z = Ok (body object) /\
    String.length (body object) = 6.
Proof.
  refine (extractZip_round_trip (mkFile "application/zip" 90 (Ok logo_members)) "abc12345"
            ∅ _ logo_members [entry_for "abc12345" "logo.svg" "<svg/>"]
            eq_refl _ _ (entry_for "abc12345" "logo.svg" "<svg/>") _).
  - apply (bool_decide_unpack _). vm_compute. exact I.
  - vm_compute. reflexivity.
  - left. reflexivity.
Defined.

(** ** Serving *)

Lemma serveHostedSite_hit (pathname : string) (b : gmap string R2Object) (object : R2Object) :
  b !! r2Key (siteId_of pathname) (requestedFile_of pathname) = Some object ->
  serveHostedSite pathname b =
    (Ok match getMimeType (requestedFile_of pathname) with
        | VStr t =>
            if Js.includes "html" t
            then html_response (VStr t) (body object) (siteId_of pathname)
            else mkResponse 200
                   (writeHttpMetadata object
                      [("Content-Type", VStr t);
                       ("Cache-Control", VStr "public, max-age=3600")])
                   (body object)
        | _ => serve_error
        end, b).
Proof.
  intros Hhit. unfold serveHostedSite, try_catch, bind, bucket_get.
  rewrite Hhit.
  destruct (getMimeType (requestedFile_of pathname)) as [t | |]; cbn; try reflexivity.
  destruct (Js.includes "html" t); reflexivity.
Qed.

Lemma serveHostedSite_miss (pathname : string) (b : gmap string R2Object) :
  b !! r2Key (siteId_of pathname) (requestedFile_of pathname) = None ->
  serveHostedSite pathname b =
    (Ok (if String.eqb (requestedFile_of pathname) "index.html" then not_found
         else match b !! r2Key (siteId_of pathname) "index.html" with
              | Some indexObject =>
                  mkResponse 200 [("Content-Type", VStr "text/html")]
                    (fixRelativePaths (body indexObject)
                       ("/s/" +:+ siteId_of pathname +:+ "/"))
              | None => not_found
              end), b).
Proof.
  intros Hmiss. unfold serveHostedSite, try_catch, bind, bucket_get.
  rewrite Hmiss.
  destruct (String.eqb (requestedFile_of pathname) "index.html"); cbn; [reflexivity|].
  destruct (b !! r2Key (siteId_of pathname) "index.html"); reflexivity.
Qed.

(** *** Paths of the form [/s/<siteId>/<segment>/.../<segment>] *)

Lemma split_segment (a s : string) :
  free_of "/" a = true ->
  Js.split "/" (a +:+ "/" +:+ s) = a :: Js.split "/" s.
Proof.
  induction a as [| c a IH]; intros Hfree; [reflexivity|].
  cbn in Hfree. apply andb_prop in Hfree. destruct Hfree as [Hc Ha].
  change (String c a +:+ "/" +:+ s) with (String c (a +:+ "/" +:+ s)).
  cbn [Js.split]. rewrite (IH Ha).
  destruct (Ascii.eqb c "/"); [discriminate Hc | reflexivity].
Qed.

Lemma split_last_segment (a : string) :
  free_of "/" a = true -> Js.split "/" a = [a].
Proof.
  induction a as [| c a IH]; intros Hfree; [reflexivity|].
  cbn in Hfree. apply andb_prop in Hfree. destruct Hfree as [Hc Ha].
  cbn [Js.split]. rewrite (IH Ha).
  destruct (Ascii.eqb c "/"); [discriminate Hc | reflexivity].
Qed.

Lemma split_join (seg : string) (segs : list string) :
  forallb segment (seg :: segs) = true ->
  Js.split "/" (Js.join "/" (seg :: segs)) = seg :: segs.
Proof.
  revert seg. induction segs as [| seg' segs IH]; intros seg Hsegs.
  - cbn in Hsegs. rewrite andb_true_r in Hsegs.
    apply andb_prop in Hsegs. now apply split_last_segment.
  - cbn [forallb] in Hsegs. apply andb_prop in Hsegs. destruct Hsegs as [Hseg Hrest].
    apply andb_prop in Hseg.
    change (Js.join "/" (seg :: seg' :: segs))
      with (seg +:+ "/" +:+ Js.join "/" (seg' :: segs)).
    rewrite split_segment by apply Hseg. now rewrite IH.
Qed.

Lemma filter_segments (segs : list string) :
  forallb segment segs = true -> List.filter nonempty segs = segs.
Proof.
  induction segs as [| seg segs IH]; [reflexivity|].
  cbn [forallb List.filter]. intros H. apply andb_prop in H. destruct H as [Hseg Hrest].
  apply andb_prop in Hseg. destruct Hseg as [Hne _]. rewrite Hne. now rewrite IH.
Qed.

(** The path the router hands over for a site and a file path made of
    segments is parsed back into that site and that file path. *)
Lemma pathParts_site_path (siteId : string) (segs : list string) :
  segment siteId = true -> forallb segment segs = true ->
  pathParts ("/s/" +:+ siteId +:+ "/" +:+ Js.join "/" segs) = "s" :: siteId :: segs.
Proof.
  intros Hid Hsegs. unfold pathParts.
  change ("/s/" +:+ siteId +:+ "/" +:+ Js.join "/" segs)
    with (EmptyString +:+ "/" +:+ "s" +:+ "/" +:+ siteId +:+ "/" +:+ Js.join "/" segs).
  pose proof Hid as Hid'. apply andb_prop in Hid'. destruct Hid' as [Hne Hfree].
  rewrite split_segment by reflexivity.
  rewrite split_segment by reflexivity.
  rewrite split_segment by exact Hfree.
  destruct segs as [| seg segs].
  - cbn [Js.join Js.split List.filter nonempty]. now rewrite Hne.
  - rewrite split_join by exact Hsegs.
    cbn [List.filter nonempty]. rewrite Hne.
    pose proof (filter_segments (seg :: segs) Hsegs) as Hkept.
    cbn [List.filter] in Hkept. now rewrite Hkept.
Qed.

Lemma site_path_parsed (siteId : string) (segs : list string) :
  segment siteId = true -> forallb segment segs = true ->
  let pathname := "/s/" +:+ siteId +:+ "/" +:+ Js.join "/" segs in
  siteId_of pathname = siteId /\
  requestedFile_of pathname = or_string (Js.join "/" segs) "index.html".
Proof.
  intros Hid Hsegs pathname. unfold siteId_of, requestedFile_of, pathname.
  rewrite pathParts_site_path by assumption. split; reflexivity.
Qed.



(** A hit on a file whose extension-derived type is a string. *)
Lemma serveHostedSite_hit_string (pathname : string) (b : gmap string R2Object)
    (object : R2Object) (t : string) :
  b !! r2Key (siteId_of pathname) (requestedFile_of pathname) = Some object ->
  getMimeType (requestedFile_of pathname) = VStr t ->
  serveHostedSite pathname b =
    (Ok (if Js.includes "html" t
         then html_response (VStr t) (body object) (siteId_of pathname)
         else mkResponse 200
                [("Content-Type", match contentType object with
                                  | Some stored_type => stored_type
                                  | None => VStr t
                                  end);
                 ("Cache-Control", VStr "public, max-age=3600")]
                (body object)), b).
Proof.
  intros Hhit Htype.
  rewrite (serveHostedSite_hit pathname b object Hhit). rewrite Htype.
  destruct (Js.includes "html" t); [reflexivity|].
  unfold writeHttpMetadata. destruct (contentType object); reflexivity.
Qed.




(** *** Serving what extraction stored *)

Lemma split_nonempty (sep : ascii) (s : string) : Js.split sep s <> [].
Proof.
  destruct s as [| c s]; cbn [Js.split]; [discriminate|].
  destruct (Ascii.eqb c sep); [discriminate|].
  destruct (Js.split sep s); discriminate.
Qed.

Lemma join_split (s : string) : Js.join "/" (Js.split "/" s) = s.
Proof.
  induction s as [| c s IH]; [reflexivity|].
  cbn [Js.split]. destruct (Ascii.eqb_spec c "/") as [-> | Hc].
  - pose proof (split_nonempty "/" s) as Hne.
    destruct (Js.split "/" s) as [| seg rest] eqn:Hsplit; [contradiction|].
    change (Js.join "/" (EmptyString :: seg :: rest))
      with (String "/" (Js.join "/" (seg :: rest))).
    now rewrite IH.
  - pose proof (split_nonempty "/" s) as Hne.
    destruct (Js.split "/" s) as [| seg rest] eqn:Hsplit; [contradiction|].
    rewrite <- IH. destruct rest; reflexivity.
Qed.

(** The path of a site without a file path is served as the path of its
    [index.html]. *)
Lemma serveHostedSite_default_file (siteId : string) (b : gmap string R2Object) :
  segment siteId = true ->
  serveHostedSite ("/s/" +:+ siteId) b = serveHostedSite ("/s/" +:+ siteId +:+ "/index.html") b /\
  serveHostedSite ("/s/" +:+ siteId +:+ "/") b =
    serveHostedSite ("/s/" +:+ siteId +:+ "/index.html") b.
Proof.
  intros Hid.
  assert (Hparts : pathParts ("/s/" +:+ siteId) = ["s"; siteId]).
  { unfold pathParts.
    change ("/s/" +:+ siteId) with (EmptyString +:+ "/" +:+ "s" +:+ "/" +:+ siteId).
    apply andb_prop in Hid. destruct Hid as [Hne Hfree].
    rewrite split_segment by reflexivity. rewrite split_segment by reflexivity.
    rewrite split_last_segment by exact Hfree.
    cbn [List.filter nonempty]. now rewrite Hne. }
  pose proof (pathParts_site_path siteId [] Hid eq_refl) as Hslash.
  pose proof (pathParts_site_path siteId ["index.html"] Hid eq_refl) as Hindex.
  cbn [Js.join] in Hslash, Hindex.
  unfold serveHostedSite, siteId_of, requestedFile_of.
  change ("/s/" +:+ siteId +:+ "/index.html") with ("/s/" +:+ siteId +:+ "/" +:+ "index.html").
  change ("/s/" +:+ siteId +:+ "/") with ("/s/" +:+ siteId +:+ "/" +:+ EmptyString).
  rewrite Hparts, Hslash, Hindex. split; reflexivity.
Qed.

(** A file that extraction stored, requested by its name under its site, is
    a hit, and it is served with the type extraction gave it: as rewritten
    text when the type contains [html], as its content otherwise. *)
Lemma serveHostedSite_extracted (file : File) (siteId : string)
    (b b' : gmap string R2Object) (members : list (string * ZipObject))
    (files : list FileEntry) (e : FileEntry) (t : string) :
  loadAsync file = Ok members ->
  NoDup (List.map fst members) ->
  extractZip file siteId b = (Ok files, b') ->
  In e files ->
  segment siteId = true ->
  forallb segment (Js.split "/" (name e)) = true ->
  type e = VStr t ->
  exists c,
    b' !! path e = Some (mkObject c (Some (VStr t))) /\
    String.length c = size e /\
    serveHostedSite ("/s/" +:+ siteId +:+ "/" +:+ name e) b' =
      (Ok (if Js.includes "html" t
           then html_response (VStr t) c siteId
           else mkResponse 200
                  [("Content-Type", VStr t); ("Cache-Control", VStr "public, max-age=3600")]
                  c), b').
Proof.
  intros Hload Hnd Hrun Hin Hid Hsegs Htype.
  unfold extractZip, bind, lift in Hrun. rewrite Hload in Hrun.
  pose proof (extractZip_loop_inv _ _ _ _ _ _ Hrun) as Hall.
  rewrite (extractZip_loop_ok siteId members Hall) in Hrun.
  inversion Hrun as [[Hfiles Hb]]. rewrite <- Hfiles in Hin. cbn [app] in Hin.
  destruct (extracted_In _ _ _ Hin) as (z & c & Hm & Hdir & Hc & He).
  assert (Hp : path e = r2Key siteId (name e)) by (rewrite He; reflexivity).
  assert (Hs : size e = String.length c) by (rewrite He; reflexivity).
  assert (Ht : getMimeType (name e) = VStr t) by (rewrite <- Htype, He; reflexivity).
  pose proof (stored_lookup siteId members b (name e) z c Hnd Hall Hm Hdir Hc) as Hstored.
  rewrite Ht in Hstored.
  exists c. split; [now rewrite Hp|]. split; [now rewrite Hs|].
  destruct (site_path_parsed siteId (Js.split "/" (name e)) Hid Hsegs) as [Hsite Hfile].
  rewrite join_split in Hsite, Hfile.
  assert (Hname : or_string (name e) "index.html" = name e).
  { destruct (name e); [discriminate Hsegs | reflexivity]. }
  rewrite Hname in Hfile.
  rewrite (serveHostedSite_hit_string _ _ (mkObject c (Some (VStr t))) t).
  - rewrite Hsite. reflexivity.
  - rewrite Hsite, Hfile. exact Hstored.
  - rewrite Hfile. exact Ht.
Qed.

(** ** The manifest *)

Lemma free_of_append (cs a b : string) :
  free_of cs (a +:+ b) = free_of cs a && free_of cs b.
Proof.
  induction a as [| c a IH]; [reflexivity|].
  change (String c a +:+ b) with (String c (a +:+ b)).
  cbn [free_of]. rewrite IH. now rewrite andb_assoc.
Qed.

Lemma charAt_chars (i : nat) :
  (i < String.length chars)%nat ->
  exists c, charAt i chars = String c EmptyString /\ Ascii.eqb c "/" = false.
Proof.
  intros Hi. cbn in Hi.
  do 36 (destruct i as [| i]; [eexists; split; reflexivity|]).
  lia.
Qed.

Lemma generateSiteId_loop_free (rand : nat -> nat) (i start : nat) :
  free_of "/" (generateSiteId_loop rand start i) = true.
Proof.
  revert start. induction i as [| i IH]; intros start; [reflexivity|].
  cbn [generateSiteId_loop]. rewrite free_of_append, IH, andb_true_r.
  destruct (charAt_chars (rand start mod String.length chars)) as (c & Hc & Hslash).
  { apply Nat.mod_upper_bound. discriminate. }
  rewrite Hc. cbn. now rewrite Hslash.
Qed.

(** A generated identifier is one path segment. *)
Lemma generateSiteId_segment (rand : nat -> nat) (start : nat) :
  segment (generateSiteId rand start) = true.
Proof.
  unfold segment. rewrite andb_true_iff. split.
  - unfold generateSiteId. cbn [generateSiteId_loop].
    destruct (charAt_chars (rand start mod String.length chars)) as (c & Hc & _).
    { apply Nat.mod_upper_bound. discriminate. }
    rewrite Hc. reflexivity.
  - apply generateSiteId_loop_free.
Qed.

(** An object stored at the manifest's key without metadata is served as
    JSON, whatever it holds. *)
Lemma serveHostedSite_config (siteId manifest : string) (b : gmap string R2Object) :
  segment siteId = true ->
  b !! r2Key siteId "config.json" = Some (mkObject manifest None) ->
  serveHostedSite ("/s/" +:+ siteId +:+ "/config.json") b =
    (Ok (mkResponse 200
           [("Content-Type", VStr "application/json");
            ("Cache-Control", VStr "public, max-age=3600")]
           manifest), b).
Proof.
  intros Hid Hstored.
  destruct (site_path_parsed siteId ["config.json"] Hid eq_refl) as [Hsite Hfile].
  change ("/s/" +:+ siteId +:+ "/config.json")
    with ("/s/" +:+ siteId +:+ "/" +:+ Js.join "/" ["config.json"]).
  rewrite (serveHostedSite_hit_string _ b (mkObject manifest None) "application/json").
  - reflexivity.
  - rewrite Hsite, Hfile. exact Hstored.
  - rewrite Hfile. reflexivity.
Qed.

Section Manifest.

Variable JSON_stringify : jsdata -> string.
Variable error_message : exn -> string.
Variable formatBytes : Z -> string.
Variable now : string.
Variable rand : nat -> nat.

(** C10. When an upload answers 200, the manifest sits in the bucket at
    [sites/<siteId>/config.json], the key an archive member named
    [config.json] is stored under, and the bucket holds the manifest there
    whatever the archive held; a request for [/s/<siteId>/config.json] is a
    hit that is answered with the manifest as [application/json]. *)
Theorem manifest_in_site_namespace (request : Request) (MAX_FILE_SIZE : option Z)
    (b b' : gmap string R2Object) (response : Response) :
  handleZipUpload JSON_stringify error_message formatBytes now rand
    request MAX_FILE_SIZE b = (Ok response, b') ->
  status response = 200 ->
  exists siteId file siteName files entryPoint,
    zipfile request = Some file /\
    fst (extractZip file siteId b) = Ok files /\
    findEntryPoint files = Ok entryPoint /\
    let manifest :=
      JSON_stringify (siteConfig now siteId siteName files entryPoint (origin request)) in
    config_key siteId = "sites/" +:+ siteId +:+ "/" +:+ "config.json" /\
    b' !! config_key siteId = Some (mkObject manifest None) /\
    (forall e, In e files -> name e = "config.json" ->
       path e = config_key siteId /\ b' !! path e = Some (mkObject manifest None)) /\
    serveHostedSite ("/s/" +:+ siteId +:+ "/config.json") b' =
      (Ok (mkResponse 200
             [("Content-Type", VStr "application/json");
              ("Cache-Control", VStr "public, max-age=3600")]
             manifest), b').
Proof.
  intros Hrun Hstatus.
  unfold handleZipUpload, try_catch in Hrun.
  destruct (content_type request) as [ct|];
    [|inversion Hrun; subst; discriminate Hstatus].
  destruct (Js.includes "multipart/form-data" ct); cbn [negb] in Hrun;
    [|inversion Hrun; subst; discriminate Hstatus].
  set (chosen := match siteName request with
                 | Some (String c n) => (String c n, 0)
                 | _ => (generateSiteId rand 0, 8)
                 end) in Hrun.
  destruct chosen as [site_name drawn].
  destruct (zipfile request) as [file|] eqn:Hfile;
    [|inversion Hrun; subst; discriminate Hstatus].
  destruct (String.eqb (file_type file) "application/zip"); cbn [negb] in Hrun;
    [|inversion Hrun; subst; discriminate Hstatus].
  match type of Hrun with
  | context [Z.ltb ?m (file_size file)] => destruct (Z.ltb m (file_size file))
  end; [inversion Hrun; subst; discriminate Hstatus|].
  set (siteId := generateSiteId rand drawn) in *.
  unfold bind at 1 in Hrun.
  destruct (extractZip file siteId b) as [[files | e] b1] eqn:Hextract;
    [|inversion Hrun; subst; discriminate Hstatus].
  unfold bind at 1 in Hrun. unfold lift in Hrun.
  destruct (findEntryPoint files) as [entryPoint | e] eqn:Hentry;
    [|inversion Hrun; subst; discriminate Hstatus].
  unfold bind, bucket_put, ret in Hrun. inversion Hrun; subst response b'.
  exists siteId, file, site_name, files, entryPoint.
  split; [reflexivity|]. split; [now rewrite Hextract|]. split; [exact Hentry|].
  intros manifest.
  assert (Hstored : <[config_key siteId := mkObject manifest None]> b1 !! config_key siteId
                    = Some (mkObject manifest None)) by apply lookup_insert_eq.
  split; [reflexivity|]. split; [exact Hstored|]. split.
  - intros e Hin Hname.
    assert (Hpath : path e = config_key siteId).
    { unfold extractZip, bind, lift in Hextract.
      destruct (loadAsync file) as [members|]; [|discriminate Hextract].
      pose proof (extractZip_loop_inv _ _ _ _ _ _ Hextract) as Hall.
      rewrite (extractZip_loop_ok siteId members Hall) in Hextract.
      inversion Hextract; subst files. cbn [app] in Hin.
      destruct (extracted_In _ _ _ Hin) as (z & c & _ & _ & _ & He).
      rewrite He. cbn [path entry_for]. now rewrite Hname. }
    split; [exact Hpath | now rewrite Hpath].
  - apply serveHostedSite_config; [apply generateSiteId_segment | exact Hstored].
Qed.

End Manifest.

(** C10 at an upload whose archive holds a page and a file named
    [config.json]. *)
Lemma manifest_in_site_namespace_witness :
  exists siteId manifest,
    snd demo_upload !! ("sites/" +:+ siteId +:+ "/" +:+ "config.json") =
      Some (mkObject manifest None) /\
    serveHostedSite ("/s/" +:+ siteId +:+ "/config.json") (snd demo_upload) =
      (Ok (mkResponse 200
             [("Content-Type", VStr "application/json");
              ("Cache-Control", VStr "public, max-age=3600")]
             manifest), snd demo_upload).
Proof.
  destruct (manifest_in_site_namespace demo_stringify (fun _ => "error") (fun _ => "10 MB")
              "2024-01-01T00:00:00.000Z" (fun n => n) demo_request None ∅ (snd demo_upload)
              (match fst demo_upload with Ok r => r | Throw _ => not_found end))
    as (siteId & file & siteName & files & entryPoint & _ & _ & _ & Hkey & Hstored & _ & Hserve).
  - vm_compute. reflexivity.
  - vm_compute. reflexivity.
  - eexists siteId, _. split; [|exact Hserve].
    rewrite <- Hkey. exact Hstored.
Defined.

(** ** The path rewriter *)

(** C8. Rewriting is not idempotent: the rewritten link of the example has a
    value that begins with the base path, and rewriting it once more puts
    the base path in front again. *)
Theorem fixRelativePaths_not_idempotent :
  exists html basePath,
    fixRelativePaths html basePath =
      "<link href=" +:+ Q +:+ basePath +:+ "style.css" +:+ Q +:+ ">" /\
    fixRelativePaths (fixRelativePaths html basePath) basePath =
      "<link href=" +:+ Q +:+ basePath +:+ basePath +:+ "style.css" +:+ Q +:+ ">" /\
    fixRelativePaths (fixRelativePaths html basePath) basePath <>
      fixRelativePaths html basePath.
Proof.
  exists ("<link href=" +:+ Q +:+ "style.css" +:+ Q +:+ ">"), "/s/abc/".
  split; [vm_compute; reflexivity|].
  split; [vm_compute; reflexivity|].
  vm_compute. discriminate.
Qed.

(** *** Strings *)

#[local] Arguments String.append : simpl nomatch.

Lemma app_nil_r (s : string) : s +:+ EmptyString = s.
Proof. induction s as [| c s IH]; cbn; [reflexivity | now rewrite IH]. Qed.

Lemma app_assoc (a b c : string) : (a +:+ b) +:+ c = a +:+ b +:+ c.
Proof. induction a as [| x a IH]; cbn; [reflexivity | now rewrite IH]. Qed.

Lemma startsWith_app (p s : string) : Js.startsWith p (p +:+ s) = true.
Proof.
  induction p as [| c p IH]; cbn; [reflexivity|].
  now rewrite Ascii.eqb_refl.
Qed.

Lemma startsWith_split (p s : string) :
  Js.startsWith p s = true -> exists s', s = p +:+ s'.
Proof.
  revert s. induction p as [| c p IH]; intros s H.
  - now exists s.
  - destruct s as [| d s]; [discriminate H|]. cbn in H.
    apply andb_prop in H. destruct H as [Hc Hp].
    apply Ascii.eqb_eq in Hc. subst d.
    destruct (IH s Hp) as [s' ->]. now exists s'.
Qed.

Lemma startsWith_cancel (a b s : string) :
  Js.startsWith (a +:+ b) (a +:+ s) = Js.startsWith b s.
Proof.
  induction a as [| c a IH]; cbn; [reflexivity|].
  now rewrite Ascii.eqb_refl.
Qed.

Lemma startsWith_within (L y r : string) (c : ascii) :
  Js.startsWith L (y +:+ String c r) = true -> mem c L = false ->
  Js.startsWith L y = true.
Proof.
  revert y. induction L as [| a L IH]; intros y H Hc; [reflexivity|].
  cbn in Hc. apply orb_false_elim in Hc. destruct Hc as [Hca HcL].
  destruct y as [| b y]; cbn in H |- *.
  - apply andb_prop in H. destruct H as [Hac _].
    apply Ascii.eqb_eq in Hac. subst a. now rewrite Ascii.eqb_refl in Hca.
  - apply andb_prop in H. destruct H as [Hab Hrest].
    rewrite Hab. cbn. now apply IH.
Qed.

Lemma startsWith_extend (L y r : string) :
  Js.startsWith L y = true -> Js.startsWith L (y +:+ r) = true.
Proof.
  intros H. destruct (startsWith_split L y H) as [s' ->].
  rewrite app_assoc. apply startsWith_app.
Qed.

(** *** The matcher *)

Lemma match_lit_app (lit d r : string) (cs : gmap nat string) (k : cont) :
  match_lit lit (mkState d (lit +:+ r) cs) k = k (mkState (d +:+ lit) r cs).
Proof.
  revert d. induction lit as [| a lit IH]; intros d; cbn.
  - now rewrite app_nil_r.
  - rewrite Ascii.eqb_refl, IH. unfold snoc. now rewrite app_assoc.
Qed.

Lemma match_lit_fail (lit d s : string) (cs : gmap nat string) (k : cont) :
  Js.startsWith lit s = false -> match_lit lit (mkState d s cs) k = None.
Proof.
  revert d s. induction lit as [| a lit IH]; intros d s H; [discriminate H|].
  destruct s as [| b s]; cbn in H |- *; [reflexivity|].
  destruct (Ascii.eqb a b); [now apply IH | reflexivity].
Qed.

Lemma match_star_fail (cs d input : string) (c : gmap nat string) (k : cont) :
  (forall p r, input = p +:+ r -> free_of cs p = true ->
               k (mkState (d +:+ p) r c) = None) ->
  match_star (NoneOf cs) d input c k = None.
Proof.
  revert d. induction input as [| b input IH]; intros d H.
  - cbn. rewrite <- (app_nil_r d). now apply H.
  - assert (Hhere : k (mkState d (String b input) c) = None).
    { rewrite <- (app_nil_r d) at 1. now apply H. }
    cbn. destruct (negb (mem b cs)) eqn:Hb; [|exact Hhere].
    rewrite IH; [exact Hhere|].
    intros p r Hsplit Hfree. unfold snoc. rewrite app_assoc. cbn.
    apply H; [cbn; now rewrite Hsplit | cbn; now rewrite Hb].
Qed.

(** The star hands over at the one place where the rest of the pattern can
    go on. *)
Lemma match_star_unique (cs p r d : string) (c : gmap nat string) (k : cont) :
  free_of cs p = true ->
  (forall p' r', p +:+ r = p' +:+ r' -> free_of cs p' = true -> p' <> p ->
                 k (mkState (d +:+ p') r' c) = None) ->
  match_star (NoneOf cs) d (p +:+ r) c k = k (mkState (d +:+ p) r c).
Proof.
  revert d. induction p as [| b p IH]; intros d Hfree Hothers.
  - rewrite app_nil_r. cbn [String.append].
    destruct r as [| b r]; [reflexivity|].
    cbn. destruct (negb (mem b cs)) eqn:Hb; [|reflexivity].
    rewrite match_star_fail; [reflexivity|].
    intros p1 r1 Hsplit Hp1. unfold snoc. rewrite app_assoc. cbn.
    apply Hothers; [cbn; now rewrite Hsplit | cbn; now rewrite Hb | discriminate].
  - cbn in Hfree. apply andb_prop in Hfree. destruct Hfree as [Hb Hp].
    cbn. rewrite Hb.
    rewrite IH; [| exact Hp |].
    + unfold snoc. rewrite app_assoc. cbn.
      destruct (k (mkState (d +:+ String b p) r c)) eqn:Hk; [reflexivity|].
      rewrite <- (app_nil_r d) at 1.
      apply Hothers; [reflexivity | reflexivity | discriminate].
    + intros p' r' Hsplit Hp' Hne. unfold snoc. rewrite app_assoc. cbn.
      apply Hothers; [cbn; now rewrite Hsplit | cbn; now rewrite Hb | congruence].
Qed.

Lemma mem_append (c : ascii) (a b : string) : mem c (a +:+ b) = mem c a || mem c b.
Proof.
  induction a as [| x a IH]; cbn; [reflexivity|].
  now rewrite IH, orb_assoc.
Qed.

(** Two ways to cut a string after a run without quotes, the first of them
    right before a quote: the other cut is the same, or is followed by a
    character that is no quote. *)
Lemma cut_before_quote (v p' r r' : string) (q : ascii) :
  v +:+ String q r = p' +:+ r' ->
  free_of quote_chars v = true -> free_of quote_chars p' = true ->
  mem q quote_chars = true ->
  p' = v \/ exists c y, r' = String c y /\ mem c quote_chars = false.
Proof.
  revert p'. induction v as [| a v IH]; intros p' Hsplit Hv Hp' Hq.
  - destruct p' as [| c p']; [now left|]. exfalso.
    cbn [String.append] in Hsplit. inversion Hsplit; subst c.
    cbn [free_of] in Hp'. rewrite Hq in Hp'. discriminate Hp'.
  - cbn [free_of] in Hv. apply andb_prop in Hv. destruct Hv as [Ha Hv].
    destruct p' as [| c p'].
    + right. cbn [String.append] in Hsplit. subst r'. exists a, (v +:+ String q r).
      split; [reflexivity|]. now apply negb_true_iff.
    + cbn [String.append] in Hsplit. inversion Hsplit; subst c.
      cbn [free_of] in Hp'. apply andb_prop in Hp'. destruct Hp' as [_ Hp'].
      destruct (IH p' H1 Hv Hp' Hq) as [-> | Hright]; [now left | now right].
Qed.

Section Pass.

Variables (tag attr : string) (exclude : regex) (untouched : string -> bool).

Hypothesis tag_space : mem " " tag = false.
Hypothesis tag_close : mem ">" tag = false.
Hypothesis tag_slash : forall s, Js.startsWith tag (String "/" s) = false.
Hypothesis attr_chars : mem ">" attr = false.
Hypothesis exclude_groups : group_count exclude = 0.

(** The lookahead looks at the value only. *)
Hypothesis exclude_value :
  forall (d v r : string) (q : ascii) (cs : gmap nat string),
    mem q quote_chars = true ->
    lookahead_hit exclude (mkState d (v +:+ String q r) cs) = untouched v.

Local Abbreviation pattern := (attribute_pattern tag attr exclude).

Lemma after_group1_value (d v r : string) (q : ascii) (cs : gmap nat string) :
  mem q quote_chars = true -> free_of quote_chars v = true ->
  after_group1 exclude (mkState d (v +:+ String q r) cs) =
    if untouched v then None
    else Some (mkState ((d +:+ v) +:+ String q EmptyString) r
                 (<[3 := String q EmptyString]> (<[2 := v]> (<[1 := d]> cs)))).
Proof.
  intros Hq Hv. unfold after_group1. cbn [rmatch consumed rest caps String.append].
  pose proof (exclude_value d v r q (<[1 := d]> cs) Hq) as Hlook.
  unfold lookahead_hit in Hlook.
  destruct (rmatch exclude _ Some); rewrite <- Hlook; [reflexivity|].
  unfold not_quotes. fold quote_chars.
  rewrite match_star_unique; [| exact Hv |].
  - cbn [consumed rest caps String.append]. unfold match_class, quotes.
    cbn [consumed rest caps in_class]. fold quote_chars. rewrite Hq.
    cbn [consumed rest caps String.append]. reflexivity.
  - intros p' r' Hsplit Hp' Hne. cbn [String.append consumed rest caps].
    destruct (cut_before_quote v p' r r' q Hsplit Hv Hp' Hq) as [-> | (c & y & -> & Hc)];
      [contradiction|].
    unfold match_class, quotes. cbn [rest in_class]. fold quote_chars.
    now rewrite Hc.
Qed.

Lemma attr_tail_miss (d s : string) (cs : gmap nat string) :
  hit_at attr s = false -> attr_tail attr exclude (mkState d s cs) = None.
Proof.
  intros Hmiss. unfold attr_tail.
  destruct (Js.startsWith (attr +:+ "=") s) eqn:Hprefix; [|now apply match_lit_fail].
  apply startsWith_split in Hprefix. destruct Hprefix as [s' ->].
  rewrite match_lit_app. unfold match_class. cbn [rest].
  destruct s' as [| c s']; [reflexivity|].
  unfold quotes. cbn [in_class].
  destruct (mem c (String dquote "'")) eqn:Hc; [exfalso | reflexivity].
  unfold hit_at in Hmiss. rewrite app_assoc in Hmiss.
  rewrite !startsWith_cancel in Hmiss.
  unfold Q in Hmiss. cbn [Js.startsWith String.append] in Hmiss. cbn [mem] in Hc.
  rewrite Ascii.eqb_refl, (Ascii.eqb_sym dquote c), (Ascii.eqb_sym "'" c) in Hmiss.
  destruct (Ascii.eqb c dquote), (Ascii.eqb c "'"); discriminate.
Qed.

Lemma attr_tail_value (d v r : string) (q q' : ascii) (cs : gmap nat string) :
  mem q quote_chars = true -> mem q' quote_chars = true ->
  free_of quote_chars v = true ->
  attr_tail attr exclude
    (mkState d ((attr +:+ "=") +:+ String q (v +:+ String q' r)) cs) =
    if untouched v then None
    else
      let opening := (d +:+ attr +:+ "=") +:+ String q EmptyString in
      Some (mkState ((opening +:+ v) +:+ String q' EmptyString) r
              (<[3 := String q' EmptyString]> (<[2 := v]> (<[1 := opening]> cs)))).
Proof.
  intros Hq Hq' Hv. unfold attr_tail.
  rewrite match_lit_app. unfold match_class, quotes. cbn [rest in_class consumed caps].
  fold quote_chars. rewrite Hq.
  now rewrite after_group1_value.
Qed.

Lemma exec_unfold (input : string) :
  exec pattern input =
    match_lit ("<" +:+ tag) (mkState EmptyString input ∅)
      (fun st => match_star (NoneOf ">") (consumed st) (rest st) (caps st)
                   (attr_tail attr exclude)).
Proof. reflexivity. Qed.

Lemma exec_other_tag (input : string) :
  Js.startsWith ("<" +:+ tag) input = false -> exec pattern input = None.
Proof. intros H. rewrite exec_unfold. now apply match_lit_fail. Qed.

Lemma exec_element (region rest : string) :
  exec pattern (("<" +:+ tag) +:+ region +:+ ">" +:+ rest) =
    match_star (NoneOf ">") ("<" +:+ tag) (region +:+ ">" +:+ rest) ∅
      (attr_tail attr exclude).
Proof. rewrite exec_unfold, match_lit_app. reflexivity. Qed.

(** *** Places where the attribute is written *)

Lemma count_hits_suffix (p y : string) :
  (count_hits attr y <= count_hits attr (p +:+ y))%nat.
Proof.
  induction p as [| c p IH]; cbn [String.append count_hits]; lia.
Qed.

Lemma count_hits_here (y : string) :
  hit_at attr y = true -> (1 <= count_hits attr y)%nat.
Proof.
  intros H. destruct y; cbn [count_hits]; rewrite H; lia.
Qed.

Lemma two_hits (p1 p2 y1 y2 : string) :
  p1 <> p2 -> p1 +:+ y1 = p2 +:+ y2 ->
  hit_at attr y1 = true -> hit_at attr y2 = true ->
  (2 <= count_hits attr (p1 +:+ y1))%nat.
Proof.
  revert p2. induction p1 as [| c p1 IH]; intros p2 Hne Hsplit H1 H2.
  - destruct p2 as [| c p2]; [contradiction|].
    cbn [String.append] in Hsplit |- *. rewrite Hsplit.
    cbn [count_hits]. rewrite <- Hsplit at 1. rewrite H1.
    pose proof (count_hits_suffix p2 y2). pose proof (count_hits_here y2 H2). lia.
  - destruct p2 as [| c' p2].
    + cbn [String.append] in Hsplit |- *.
      cbn [count_hits]. rewrite Hsplit at 1. rewrite H2.
      pose proof (count_hits_suffix p1 y1). pose proof (count_hits_here y1 H1). lia.
    + cbn [String.append] in Hsplit |- *. inversion Hsplit; subst c'.
      assert (Hne' : p1 <> p2) by congruence.
      pose proof (IH p2 Hne' H3 H1 H2). cbn [count_hits]. lia.
Qed.

Lemma split_in_region (region rest p r : string) :
  free_of ">" region = true -> free_of ">" p = true ->
  region +:+ ">" +:+ rest = p +:+ r ->
  exists y, region = p +:+ y /\ r = y +:+ ">" +:+ rest.
Proof.
  revert region. induction p as [| c p IH]; intros region Hregion Hp Hsplit.
  - exists region. split; [reflexivity | now rewrite Hsplit].
  - cbn [free_of] in Hp. apply andb_prop in Hp. destruct Hp as [Hc Hp].
    destruct region as [| c' region]; cbn [String.append] in Hsplit.
    + inversion Hsplit; subst c. discriminate Hc.
    + inversion Hsplit; subst c'.
      cbn [free_of] in Hregion. apply andb_prop in Hregion. destruct Hregion as [_ Hregion].
      destruct (IH region Hregion Hp H1) as [y [-> ->]]. now exists y.
Qed.

Lemma hit_at_within (y rest : string) :
  hit_at attr (y +:+ ">" +:+ rest) = true -> hit_at attr y = true.
Proof.
  unfold hit_at. intros H. apply orb_prop in H.
  apply orb_true_intro. destruct H as [H | H]; [left | right].
  - apply (startsWith_within _ y rest ">" H).
    rewrite mem_append, attr_chars. reflexivity.
  - apply (startsWith_within _ y rest ">" H).
    rewrite mem_append, attr_chars. reflexivity.
Qed.

(** *** One attempt at a tag *)

Lemma exec_no_attr (region rest : string) :
  free_of ">" region = true -> count_hits attr region = 0 ->
  exec pattern (("<" +:+ tag) +:+ region +:+ ">" +:+ rest) = None.
Proof.
  intros Hregion Hcount. rewrite exec_element.
  apply match_star_fail. intros p r Hsplit Hp.
  apply attr_tail_miss. destruct (hit_at attr r) eqn:Hhit; [exfalso | reflexivity].
  destruct (split_in_region region rest p r Hregion Hp Hsplit) as [y [Hy Hr]].
  rewrite Hr in Hhit. apply hit_at_within in Hhit.
  pose proof (count_hits_here y Hhit). pose proof (count_hits_suffix p y).
  rewrite <- Hy in *. lia.
Qed.

Lemma exec_attr (pre v post rest : string) :
  let written := (attr +:+ "=") +:+ String dquote (v +:+ String dquote post) in
  free_of ">" (pre +:+ written) = true ->
  free_of quote_chars v = true ->
  count_hits attr (pre +:+ written) = 1 ->
  exec pattern (("<" +:+ tag) +:+ (pre +:+ written) +:+ ">" +:+ rest) =
    if untouched v then None
    else
      let opening := ((("<" +:+ tag) +:+ pre) +:+ attr +:+ "=") +:+ String dquote EmptyString in
      Some (mkState ((opening +:+ v) +:+ String dquote EmptyString)
              (post +:+ ">" +:+ rest)
              (<[3 := String dquote EmptyString]> (<[2 := v]> (<[1 := opening]> ∅)))).
Proof.
  intros written Hregion Hv Hcount. rewrite exec_element.
  assert (Hshape : (pre +:+ written) +:+ ">" +:+ rest =
                   pre +:+ (attr +:+ "=") +:+
                     String dquote (v +:+ String dquote (post +:+ ">" +:+ rest))).
  { unfold written. rewrite !app_assoc. cbn [String.append].
    do 2 f_equal. rewrite !app_assoc. reflexivity. }
  assert (Hwritten : hit_at attr written = true).
  { unfold hit_at, written. apply orb_true_intro. left.
    rewrite app_assoc. rewrite startsWith_cancel. unfold Q. cbn [String.append Js.startsWith].
    now rewrite !Ascii.eqb_refl. }
  rewrite Hshape.
  rewrite free_of_append in Hregion. apply andb_prop in Hregion. destruct Hregion as [Hpre Hw].
  rewrite match_star_unique; [| exact Hpre |].
  - rewrite app_assoc. now rewrite attr_tail_value.
  - intros p' r' Hsplit Hp' Hne. apply attr_tail_miss.
    destruct (hit_at attr r') eqn:Hhit; [exfalso | reflexivity].
    rewrite <- Hshape in Hsplit.
    destruct (split_in_region (pre +:+ written) rest p' r') as [y [Hy Hr]];
      [now rewrite free_of_append, Hpre, Hw | exact Hp' | exact Hsplit |].
    rewrite Hr in Hhit. apply hit_at_within in Hhit.
    assert (Hne' : pre <> p') by congruence.
    pose proof (two_hits pre p' written y Hne' Hy Hwritten Hhit). lia.
Qed.

(** *** The replacement template *)

Lemma GetSubstitution_plain (matched before after : string) (cs : gmap nat string)
    (m : nat) (text tail : string) :
  free_of "$" text = true ->
  GetSubstitution matched before after cs m (text +:+ tail) =
    text +:+ GetSubstitution matched before after cs m tail.
Proof.
  induction text as [| c text IH]; intros Hfree; [reflexivity|].
  cbn [free_of mem] in Hfree. rewrite orb_false_r in Hfree.
  apply andb_prop in Hfree. destruct Hfree as [Hc Htext].
  cbn [String.append GetSubstitution]. rewrite Hc. now rewrite IH.
Qed.

Lemma GetSubstitution_template (matched before after : string) (cs : gmap nat string)
    (basePath : string) :
  free_of "$" basePath = true ->
  GetSubstitution matched before after cs 3 (template basePath) =
    capture cs 1 +:+ basePath +:+ capture cs 2 +:+ capture cs 3.
Proof.
  intros Hfree.
  assert (Htail : GetSubstitution matched before after cs 3 (basePath +:+ "$2$3") =
                  basePath +:+ capture cs 2 +:+ capture cs 3).
  { rewrite GetSubstitution_plain by exact Hfree. f_equal.
    cbn. unfold one_digit. cbn. now rewrite app_nil_r. }
  unfold template. cbn [String.append GetSubstitution].
  change (negb (Ascii.eqb "$" "$")) with false. cbv iota.
  change (Ascii.eqb "1" "$") with false. change (Ascii.eqb "1" "`") with false.
  change (Ascii.eqb "1" "&") with false. change (Ascii.eqb "1" "'") with false.
  cbv iota. change (Ascii.is_nat "1") with (Some 1). cbv iota.
  assert (Hone : one_digit cs 3 "1" 1
                   (GetSubstitution matched before after cs 3 (basePath +:+ "$2$3")) =
                 capture cs 1 +:+ basePath +:+ capture cs 2 +:+ capture cs 3).
  { unfold one_digit. cbn [Nat.leb andb]. now rewrite Htail. }
  destruct (basePath +:+ "$2$3") as [| d2 t] eqn:Hshape; [exact Hone|].
  destruct (Ascii.is_nat d2) as [n2|]; [|exact Hone].
  replace (10 * 1 + n2 <=? 3)%nat with false; [exact Hone|].
  symmetry. apply Nat.leb_gt. lia.
Qed.

(** *** The scan *)

Lemma replace_skip (r : regex) (tmpl m before s : string) :
  replace_from r tmpl before (m +:+ s) (String.length m) =
    replace_from r tmpl (before +:+ m) s 0.
Proof.
  revert before. induction m as [| c m IH]; intros before.
  - cbn [String.append String.length]. now rewrite app_nil_r.
  - cbn [String.append String.length replace_from]. rewrite IH.
    unfold snoc. now rewrite app_assoc.
Qed.

Lemma replace_miss (r : regex) (tmpl before s : string) (c : ascii) :
  exec r (String c s) = None ->
  replace_from r tmpl before (String c s) 0 =
    String c (replace_from r tmpl (snoc before c) s 0).
Proof. intros H. cbn [replace_from]. now rewrite H. Qed.

Lemma replace_hit (r : regex) (tmpl before m s : string) (st : mstate) :
  m <> EmptyString ->
  exec r (m +:+ s) = Some st -> consumed st = m -> rest st = s ->
  replace_from r tmpl before (m +:+ s) 0 =
    GetSubstitution m before s (caps st) (group_count r) tmpl +:+
    replace_from r tmpl (before +:+ m) s 0.
Proof.
  intros Hm Hexec Hconsumed Hrest.
  destruct m as [| c m]; [contradiction|].
  cbn [String.append replace_from] in Hexec |- *.
  rewrite Hexec, Hconsumed, Hrest. rewrite replace_skip.
  unfold snoc. rewrite app_assoc. reflexivity.
Qed.

Lemma copy_inert (tmpl s before rest : string) :
  free_of "<" s = true ->
  replace_from pattern tmpl before (s +:+ rest) 0 =
    s +:+ replace_from pattern tmpl (before +:+ s) rest 0.
Proof.
  revert before. induction s as [| c s IH]; intros before Hfree.
  - cbn [String.append]. now rewrite app_nil_r.
  - cbn [free_of mem] in Hfree. rewrite orb_false_r in Hfree.
    apply andb_prop in Hfree. destruct Hfree as [Hc Hs].
    cbn [String.append]. rewrite replace_miss.
    + rewrite IH by exact Hs. unfold snoc. now rewrite app_assoc.
    + apply exec_other_tag. cbn [String.append Js.startsWith].
      rewrite Ascii.eqb_sym. apply negb_true_iff in Hc. now rewrite Hc.
Qed.

(** *** One replacement on a node *)

Variable basePath : string.
Hypothesis basePath_dollar : free_of "$" basePath = true.

Local Abbreviation scan := (replace_from pattern (template basePath)).
Local Abbreviation rewrite_here := (rewrite_attr attr untouched basePath).

Lemma render_attrs_app (a b : list (string * string)) :
  render_attrs (a ++ b) = render_attrs a +:+ render_attrs b.
Proof.
  induction a as [| kv a IH]; [reflexivity|].
  cbn [app render_attrs]. rewrite IH. now rewrite app_assoc.
Qed.

Lemma count_named_none (attrs : list (string * string)) :
  count_named attr attrs = 0 -> List.map rewrite_here attrs = attrs.
Proof.
  unfold count_named. induction attrs as [| kv attrs IH]; [reflexivity|].
  cbn [List.filter List.map]. unfold rewrite_attr at 1.
  destruct (String.eqb (fst kv) attr); [discriminate|].
  intros H. cbn [andb]. now rewrite IH.
Qed.

Lemma count_named_one (attrs : list (string * string)) :
  count_named attr attrs = 1 ->
  exists pre v post,
    attrs = (pre ++ (attr, v) :: post)%list /\
    count_named attr pre = 0 /\ count_named attr post = 0.
Proof.
  unfold count_named. induction attrs as [| [k v] attrs IH]; [discriminate|].
  cbn [List.filter fst]. destruct (String.eqb_spec k attr) as [-> | Hk].
  - cbn [List.length]. intros H. exists [], v, attrs.
    split; [reflexivity|]. split; [reflexivity | lia].
  - intros H. destruct (IH H) as (pre & v' & post & -> & Hpre & Hpost).
    exists ((k, v) :: pre), v', post. split; [reflexivity|]. split; [|exact Hpost].
    cbn [List.filter fst]. destruct (String.eqb_spec k attr); [contradiction | exact Hpre].
Qed.

Lemma attrs_then (attrs : list (string * string)) (rest : string) :
  exists c s, render_attrs attrs +:+ ">" +:+ rest = String c s /\ mem c tag = false.
Proof.
  destruct attrs as [| kv attrs].
  - exists ">"%char, rest. split; [reflexivity | exact tag_close].
  - exists " "%char, ((fst kv +:+ "=" +:+ Q +:+ snd kv +:+ Q) +:+
                       render_attrs attrs +:+ ">" +:+ rest).
    split; [|exact tag_space].
    cbn [render_attrs]. unfold render_attr. rewrite !app_assoc. reflexivity.
Qed.

(** A tag at which the pattern fails is copied as it is. *)
Lemma scan_unchanged (t : string) (attrs : list (string * string)) (before rest : string) :
  free_of "<" t = true -> free_of "<" (render_attrs attrs) = true ->
  exec pattern (render_node (Open t attrs) +:+ rest) = None ->
  scan before (render_node (Open t attrs) +:+ rest) 0 =
    render_node (Open t attrs) +:+ scan (before +:+ render_node (Open t attrs)) rest 0.
Proof.
  intros Ht Hattrs Hexec. cbn [render_node String.append] in Hexec |- *.
  rewrite replace_miss by exact Hexec. f_equal.
  rewrite copy_inert.
  - unfold snoc. rewrite !app_assoc. reflexivity.
  - rewrite !free_of_append, Ht, Hattrs. reflexivity.
Qed.

Lemma scan_other_tag (t : string) (attrs : list (string * string)) (before rest : string) :
  free_of "<" t = true -> free_of "<" (render_attrs attrs) = true ->
  Js.startsWith tag t = false ->
  scan before (render_node (Open t attrs) +:+ rest) 0 =
    render_node (Open t attrs) +:+ scan (before +:+ render_node (Open t attrs)) rest 0.
Proof.
  intros Ht Hattrs Htag. apply scan_unchanged; try assumption.
  apply exec_other_tag. cbn [render_node String.append Js.startsWith].
  rewrite Ascii.eqb_refl. cbn [andb].
  destruct (attrs_then attrs rest) as (c & s & Hshape & Hc).
  rewrite !app_assoc. rewrite Hshape.
  destruct (Js.startsWith tag (t +:+ String c s)) eqn:Hstarts; [|reflexivity].
  rewrite (startsWith_within tag t s c Hstarts Hc) in Htag. discriminate Htag.
Qed.

Lemma element_shape (t region rest : string) :
  render_node (Open t []) = "<" +:+ t +:+ ">" ->
  ("<" +:+ t +:+ region +:+ ">") +:+ rest = ("<" +:+ t) +:+ region +:+ ">" +:+ rest.
Proof. intros _. rewrite !app_assoc. reflexivity. Qed.

Lemma scan_tag (attrs : list (string * string)) (before rest : string) :
  free_of "<" tag = true ->
  free_of "<" (render_attrs attrs) = true ->
  free_of ">" (render_attrs attrs) = true ->
  forallb (fun kv => free_of quote_chars (snd kv)) attrs = true ->
  (count_named attr attrs <= 1)%nat ->
  count_hits attr (render_attrs attrs) = count_named attr attrs ->
  scan before (render_node (Open tag attrs) +:+ rest) 0 =
    render_node (Open tag (List.map rewrite_here attrs)) +:+
    scan (before +:+ render_node (Open tag attrs)) rest 0.
Proof.
  intros Htag Hlt Hgt Hvalues Hle Hcount.
  destruct (count_named attr attrs) as [| [| n]] eqn:Hnamed; [| | lia].
  - (* the attribute is not there *)
    rewrite (count_named_none attrs Hnamed).
    apply scan_unchanged; try assumption.
    cbn [render_node]. rewrite element_shape by reflexivity.
    now apply exec_no_attr.
  - (* the attribute is there once *)
    destruct (count_named_one attrs Hnamed) as (pre & v & post & -> & Hpre & Hpost).
    rewrite map_app. cbn [List.map].
    rewrite (count_named_none pre Hpre), (count_named_none post Hpost).
    assert (Hv : free_of quote_chars v = true).
    { rewrite forallb_app in Hvalues. apply andb_prop in Hvalues.
      destruct Hvalues as [_ Hvalues]. cbn [forallb snd] in Hvalues.
      now apply andb_prop in Hvalues. }
    set (written := (attr +:+ "=") +:+
                    String dquote (v +:+ String dquote (render_attrs post))).
    assert (Hregion : render_attrs (pre ++ (attr, v) :: post) =
                      (render_attrs pre +:+ " ") +:+ written).
    { rewrite render_attrs_app. cbn [render_attrs]. unfold render_attr, written, Q.
      cbn [fst snd]. rewrite !app_assoc. reflexivity. }
    pose proof (exec_attr (render_attrs pre +:+ " ") v (render_attrs post) rest) as Hexec.
    cbv zeta in Hexec. fold written in Hexec. rewrite <- Hregion in Hexec.
    specialize (Hexec Hgt Hv Hcount).
    unfold rewrite_attr at 1. cbn [fst snd]. rewrite String.eqb_refl. cbn [andb].
    destruct (untouched v) eqn:Hkeep; cbn [negb].
    + apply scan_unchanged; try assumption.
      cbn [render_node]. rewrite element_shape by reflexivity. exact Hexec.
    + set (opening := ((("<" +:+ tag) +:+ render_attrs pre +:+ " ") +:+ attr +:+ "=") +:+
                      String dquote EmptyString) in Hexec.
      set (matched := (opening +:+ v) +:+ String dquote EmptyString) in Hexec.
      set (after := render_attrs post +:+ ">" +:+ rest) in Hexec.
      assert (Hinput : render_node (Open tag (pre ++ (attr, v) :: post)) +:+ rest =
                       matched +:+ after).
      { cbn [render_node]. rewrite Hregion. unfold matched, opening, after, written.
        rewrite !app_assoc. cbn [String.append]. rewrite !app_assoc. reflexivity. }
      rewrite Hinput. rewrite <- element_shape, Hregion in Hexec by reflexivity.
      cbn [render_node] in Hinput. rewrite Hregion in Hinput. rewrite Hinput in Hexec.
      rewrite (replace_hit pattern (template basePath) before matched after _
                 ltac:(unfold matched, opening; cbn [String.append]; discriminate)
                 Hexec eq_refl eq_refl).
      assert (Hgroups : group_count pattern = 3).
      { unfold attribute_pattern. cbn [group_count]. now rewrite exclude_groups. }
      rewrite Hgroups. cbn [caps].
      rewrite GetSubstitution_template by exact basePath_dollar.
      unfold capture.
      rewrite lookup_insert_ne, lookup_insert_ne, lookup_insert_eq by discriminate.
      rewrite lookup_insert_ne, lookup_insert_eq by discriminate.
      rewrite lookup_insert_eq.
      unfold after. rewrite <- (app_assoc (render_attrs post) ">" rest).
      rewrite copy_inert.
      * cbn [render_node]. rewrite render_attrs_app. cbn [render_attrs].
        unfold render_attr, opening, Q. cbn [fst snd].
        rewrite Hregion. unfold matched, opening, written.
        rewrite !app_assoc. cbn [String.append]. rewrite !app_assoc. reflexivity.
      * rewrite Hregion in Hlt. unfold written in Hlt.
        rewrite !free_of_append in Hlt. cbn [free_of] in Hlt.
        rewrite !free_of_append in Hlt. cbn [free_of] in Hlt.
        rewrite free_of_append. cbn [free_of mem].
        repeat (apply andb_prop in Hlt; destruct Hlt as [? Hlt]).
        now rewrite Hlt.
Qed.

Lemma scan_node (n : node) (before rest : string) :
  pass_ok tag attr n = true ->
  scan before (render_node n +:+ rest) 0 =
    render_node (rewrite_pass tag attr untouched basePath n) +:+
    scan (before +:+ render_node n) rest 0.
Proof.
  destruct n as [s | t attrs | t]; cbn [pass_ok rewrite_pass]; intros Hok.
  - now apply copy_inert.
  - apply andb_prop in Hok. destruct Hok as [Hinside Hcase].
    apply andb_prop in Hinside. destruct Hinside as [Ht Hattrs].
    destruct (String.eqb_spec t tag) as [-> | Hother].
    + repeat (apply andb_prop in Hcase; destruct Hcase as [Hcase ?]).
      apply scan_tag; try assumption.
      * now apply Nat.leb_le.
      * now apply Nat.eqb_eq.
    + apply scan_other_tag; try assumption. now apply negb_true_iff.
  - cbn [render_node String.append]. rewrite replace_miss.
    + f_equal. change (String "/" ((t +:+ ">") +:+ rest)) with (("/" +:+ t +:+ ">") +:+ rest).
      rewrite copy_inert.
      * unfold snoc. rewrite !app_assoc. reflexivity.
      * cbn [String.append free_of mem]. rewrite free_of_append, Hok. reflexivity.
    + apply exec_other_tag. cbn [String.append Js.startsWith].
      rewrite Ascii.eqb_refl. cbn [andb]. apply tag_slash.
Qed.

Lemma scan_doc (doc : list node) (before : string) :
  forallb (pass_ok tag attr) doc = true ->
  scan before (render doc) 0 =
    render (List.map (rewrite_pass tag attr untouched basePath) doc).
Proof.
  revert before. induction doc as [| n doc IH]; intros before Hok.
  - cbn [render replace_from].
    rewrite exec_other_tag by reflexivity. reflexivity.
  - cbn [forallb] in Hok. apply andb_prop in Hok. destruct Hok as [Hn Hdoc].
    cbn [render List.map]. rewrite scan_node by exact Hn. now rewrite IH.
Qed.

(** One replacement on the text of a document is the replacement on the
    document. *)
Lemma replace_doc (doc : list node) :
  forallb (pass_ok tag attr) doc = true ->
  replace pattern (template basePath) (render doc) =
    render (List.map (rewrite_pass tag attr untouched basePath) doc).
Proof. apply scan_doc. Qed.

End Pass.

(** *** The lookaheads *)

Lemma startsWith_app_false (a b s : string) :
  Js.startsWith a s = false -> Js.startsWith (a +:+ b) s = false.
Proof.
  revert s. induction a as [| c a IH]; intros s H; [discriminate H|].
  destruct s as [| d s]; [reflexivity|].
  cbn [String.append Js.startsWith] in H |- *.
  destruct (Ascii.eqb c d); [now apply IH | reflexivity].
Qed.

Lemma lookahead_lit (lit d s : string) (cs : gmap nat string) :
  lookahead_hit (Lit lit) (mkState d s cs) = Js.startsWith lit s.
Proof.
  unfold lookahead_hit. cbn [rmatch].
  destruct (Js.startsWith lit s) eqn:H.
  - apply startsWith_split in H. destruct H as [s' ->]. now rewrite match_lit_app.
  - now rewrite match_lit_fail.
Qed.

Lemma lookahead_absolute_url (d s : string) (cs : gmap nat string) :
  lookahead_hit absolute_url (mkState d s cs) = is_absolute s.
Proof.
  unfold lookahead_hit, absolute_url, is_absolute. cbn [rmatch].
  change "http://" with ("http" +:+ "://"). change "https://" with ("http" +:+ "s" +:+ "://").
  destruct (Js.startsWith "http" s) eqn:Hhttp.
  - apply startsWith_split in Hhttp. destruct Hhttp as [s1 ->].
    rewrite match_lit_app, !startsWith_cancel.
    destruct (Js.startsWith "s" s1) eqn:Hs.
    + apply startsWith_split in Hs. destruct Hs as [s2 ->].
      rewrite match_lit_app, startsWith_cancel.
      destruct (Js.startsWith "://" s2) eqn:Hrest.
      * apply startsWith_split in Hrest. destruct Hrest as [s3 ->].
        rewrite match_lit_app. now rewrite orb_true_r.
      * rewrite (match_lit_fail "://" _ s2) by exact Hrest.
        rewrite match_lit_fail by reflexivity. reflexivity.
    + rewrite (match_lit_fail "s") by exact Hs.
      rewrite (startsWith_app_false "s" "://" s1 Hs), orb_false_r.
      destruct (Js.startsWith "://" s1) eqn:Hrest.
      * apply startsWith_split in Hrest. destruct Hrest as [s3 ->].
        now rewrite match_lit_app.
      * now rewrite match_lit_fail.
  - rewrite match_lit_fail by exact Hhttp.
    now rewrite !startsWith_app_false.
Qed.

Lemma lookahead_alt (r1 r2 : regex) (st : mstate) :
  lookahead_hit (Alt r1 r2) st = lookahead_hit r1 st || lookahead_hit r2 st.
Proof.
  unfold lookahead_hit. cbn [rmatch].
  destruct (rmatch r1 st Some); reflexivity.
Qed.

Lemma quote_cases (q : ascii) :
  mem q quote_chars = true -> q = dquote \/ q = "'"%char.
Proof.
  unfold quote_chars. cbn [mem]. rewrite orb_false_r. intros H.
  apply orb_prop in H. destruct H as [H | H]; apply Ascii.eqb_eq in H; auto.
Qed.

Lemma startsWith_value (L v r : string) (q : ascii) :
  mem q L = false ->
  Js.startsWith L (v +:+ String q r) = Js.startsWith L v.
Proof.
  intros Hq. destruct (Js.startsWith L v) eqn:Hv.
  - now apply startsWith_extend.
  - destruct (Js.startsWith L (v +:+ String q r)) eqn:H; [|reflexivity].
    rewrite (startsWith_within L v r q H Hq) in Hv. discriminate Hv.
Qed.

Lemma absolute_url_value (d v r : string) (q : ascii) (cs : gmap nat string) :
  mem q quote_chars = true ->
  lookahead_hit absolute_url (mkState d (v +:+ String q r) cs) = is_absolute v.
Proof.
  intros Hq. rewrite lookahead_absolute_url. unfold is_absolute.
  destruct (quote_cases q Hq) as [-> | ->];
    now rewrite !startsWith_value by reflexivity.
Qed.

Lemma anchor_value (d v r : string) (q : ascii) (cs : gmap nat string) :
  mem q quote_chars = true ->
  lookahead_hit (Alt absolute_url (Lit "#")) (mkState d (v +:+ String q r) cs) =
    left_untouched "a" v.
Proof.
  intros Hq. rewrite lookahead_alt, absolute_url_value by exact Hq.
  rewrite lookahead_lit. unfold left_untouched. cbn [String.eqb Ascii.eqb andb].
  f_equal. destruct (quote_cases q Hq) as [-> | ->];
    now rewrite startsWith_value by reflexivity.
Qed.

(** *** The four replacements on a plain document *)

Lemma free_of_weaken (cs cs' s : string) :
  (forall c, mem c cs' = true -> mem c cs = true) ->
  free_of cs s = true -> free_of cs' s = true.
Proof.
  intros Hsub. induction s as [| c s IH]; [reflexivity|].
  cbn [free_of]. intros H. apply andb_prop in H. destruct H as [Hc Hs].
  rewrite (IH Hs), andb_true_r. apply negb_true_iff. apply negb_true_iff in Hc.
  destruct (mem c cs') eqn:Hc'; [|reflexivity]. now rewrite (Hsub c Hc') in Hc.
Qed.

Lemma markup_one (c : ascii) (s : string) :
  mem c markup = true -> free_of markup s = true -> free_of (String c EmptyString) s = true.
Proof.
  intros Hc. apply free_of_weaken. intros x Hx.
  cbn [mem] in Hx. rewrite orb_false_r in Hx. apply Ascii.eqb_eq in Hx. now subst x.
Qed.

Lemma markup_quotes (s : string) :
  free_of markup s = true -> free_of quote_chars s = true.
Proof.
  apply free_of_weaken. intros x Hx. unfold markup. cbn [mem].
  unfold quote_chars in Hx. cbn [mem] in Hx. rewrite Hx. now rewrite !orb_true_r.
Qed.

Lemma render_attrs_free (c : ascii) (attrs : list (string * string)) :
  mem c markup = true -> mem c " =" = false -> Ascii.eqb dquote c = false ->
  forallb (fun kv => free_of markup (fst kv) && free_of markup (snd kv)) attrs = true ->
  free_of (String c EmptyString) (render_attrs attrs) = true.
Proof.
  intros Hc Hsep Hq. induction attrs as [| kv attrs IH]; [reflexivity|].
  cbn [forallb render_attrs]. intros H. apply andb_prop in H. destruct H as [Hkv Hattrs].
  apply andb_prop in Hkv. destruct Hkv as [Hk Hv].
  unfold render_attr, Q. rewrite !free_of_append.
  rewrite (markup_one c _ Hc Hk), (markup_one c _ Hc Hv), (IH Hattrs).
  cbn [free_of mem] in *. rewrite !orb_false_r in *.
  apply orb_false_elim in Hsep. destruct Hsep as [Hspace Heq].
  rewrite (Ascii.eqb_sym " " c), (Ascii.eqb_sym "=" c).
  now rewrite Hspace, Heq, Hq.
Qed.

Lemma values_quote_free (attrs : list (string * string)) :
  forallb (fun kv => free_of markup (fst kv) && free_of markup (snd kv)) attrs = true ->
  forallb (fun kv => free_of quote_chars (snd kv)) attrs = true.
Proof.
  induction attrs as [| kv attrs IH]; [reflexivity|].
  cbn [forallb]. intros H. apply andb_prop in H. destruct H as [Hkv Hattrs].
  apply andb_prop in Hkv. destruct Hkv as [_ Hv].
  now rewrite (markup_quotes _ Hv), (IH Hattrs).
Qed.

(** A plain node is fit for each of the four replacements. *)
Lemma plain_pass_ok (n : node) :
  plain_node n = true ->
  pass_ok "link" "href" n = true /\ pass_ok "script" "src" n = true /\
  pass_ok "img" "src" n = true /\ pass_ok "a" "href" n = true.
Proof.
  destruct n as [s | t attrs | t]; cbn [plain_node pass_ok]; intros Hplain;
    [now repeat split | | now repeat split].
  apply andb_prop in Hplain. destruct Hplain as [Hchars Hcase].
  apply andb_prop in Hchars. destruct Hchars as [Ht Hattrs].
  rewrite (markup_one "<" t eq_refl Ht).
  rewrite (render_attrs_free "<" attrs eq_refl eq_refl eq_refl Hattrs).
  rewrite (render_attrs_free ">" attrs eq_refl eq_refl eq_refl Hattrs).
  rewrite (values_quote_free attrs Hattrs).
  cbn [andb]. unfold context_attr in Hcase.
  destruct (String.eqb_spec t "link") as [-> | Hlink];
    [cbn [String.eqb Ascii.eqb Js.startsWith negb andb]; now rewrite Hcase|].
  destruct (String.eqb_spec t "script") as [-> | Hscript];
    [cbn [String.eqb Ascii.eqb Js.startsWith negb andb]; now rewrite Hcase|].
  destruct (String.eqb_spec t "img") as [-> | Himg];
    [cbn [String.eqb Ascii.eqb Js.startsWith negb andb]; now rewrite Hcase|].
  destruct (String.eqb_spec t "a") as [-> | Ha];
    [cbn [String.eqb Ascii.eqb Js.startsWith negb andb]; now rewrite Hcase|].
  unfold openers in Hcase. cbn [forallb] in Hcase.
  repeat (apply andb_prop in Hcase; destruct Hcase as [? Hcase]).
  now repeat split.
Qed.

Lemma render_attrs_rewritten (attr basePath : string) (untouched : string -> bool)
    (attrs : list (string * string)) :
  free_of "<" basePath = true ->
  free_of "<" (render_attrs attrs) = true ->
  free_of "<" (render_attrs (List.map (rewrite_attr attr untouched basePath) attrs)) = true.
Proof.
  intros Hbase. induction attrs as [| kv attrs IH]; [reflexivity|].
  cbn [List.map render_attrs]. rewrite !free_of_append.
  intros H. apply andb_prop in H. destruct H as [Hkv Hattrs].
  rewrite (IH Hattrs), andb_true_r.
  unfold rewrite_attr. destruct (String.eqb (fst kv) attr && negb (untouched (snd kv)));
    [|exact Hkv].
  unfold render_attr in Hkv |- *. cbn [fst snd].
  rewrite !free_of_append in Hkv. rewrite !free_of_append. rewrite Hbase.
  repeat (apply andb_prop in Hkv; destruct Hkv as [? Hkv]).
  repeat (apply andb_true_intro; split); assumption.
Qed.

(** A replacement for another tag leaves a node fit for this one. *)
Lemma pass_ok_rewritten (tag attr tag' attr' basePath : string)
    (untouched : string -> bool) (n : node) :
  free_of "<" basePath = true -> String.eqb tag' tag = false ->
  pass_ok tag attr n = true ->
  pass_ok tag attr (rewrite_pass tag' attr' untouched basePath n) = true.
Proof.
  intros Hbase Htags. destruct n as [s | t attrs | t]; cbn [rewrite_pass]; try easy.
  destruct (String.eqb_spec t tag') as [-> | _]; [|easy].
  cbn [pass_ok]. rewrite Htags. intros Hok.
  apply andb_prop in Hok. destruct Hok as [Hinside Hother].
  apply andb_prop in Hinside. destruct Hinside as [Ht Hattrs].
  now rewrite Ht, Hother, render_attrs_rewritten.
Qed.

Lemma pass_ok_rewritten_doc (tag attr tag' attr' basePath : string)
    (untouched : string -> bool) (doc : list node) :
  free_of "<" basePath = true -> String.eqb tag' tag = false ->
  forallb (pass_ok tag attr) doc = true ->
  forallb (pass_ok tag attr)
    (List.map (rewrite_pass tag' attr' untouched basePath) doc) = true.
Proof.
  intros Hbase Htags. induction doc as [| n doc IH]; [reflexivity|].
  cbn [forallb List.map]. intros H. apply andb_prop in H. destruct H as [Hn Hdoc].
  now rewrite pass_ok_rewritten, IH.
Qed.

Lemma map_pairs (attrs : list (string * string)) :
  List.map (fun kv => (fst kv, snd kv)) attrs = attrs.
Proof.
  induction attrs as [| [k v] attrs IH]; [reflexivity|]. cbn. now rewrite IH.
Qed.

Ltac eval_eqb :=
  repeat match goal with
  | |- context [String.eqb ?a ?b] =>
      let v := eval vm_compute in (String.eqb a b) in
      match v with
      | true => change (String.eqb a b) with true
      | false => change (String.eqb a b) with false
      end
  end.

(** The four replacements, one after the other, are the rewriter of the
    specification. *)
Lemma four_passes (basePath : string) (n : node) :
  rewrite_pass "a" "href" (left_untouched "a") basePath
    (rewrite_pass "img" "src" is_absolute basePath
       (rewrite_pass "script" "src" is_absolute basePath
          (rewrite_pass "link" "href" is_absolute basePath n))) =
  rewrite_node basePath n.
Proof.
  destruct n as [s | t attrs | t]; try reflexivity.
  assert (Hvalue : forall tag attr (untouched : string -> bool),
             context_attr tag = Some attr ->
             (forall v, left_untouched tag v = untouched v) ->
             List.map (rewrite_attr attr untouched basePath) attrs =
             List.map (fun kv => (fst kv, rewrite_value basePath tag (fst kv) (snd kv))) attrs).
  { intros tag attr untouched Hctx Hsame. apply map_ext. intros [k v].
    unfold rewrite_attr, rewrite_value, in_context. rewrite Hctx, Hsame. cbn [fst snd].
    destruct (String.eqb k attr && negb (untouched v)); reflexivity. }
  assert (Habs : forall tag, String.eqb tag "a" = false ->
                   forall v, left_untouched tag v = is_absolute v).
  { intros tag Htag v. unfold left_untouched. rewrite Htag. apply orb_false_r. }
  cbn [rewrite_node rewrite_pass].
  destruct (String.eqb_spec t "link") as [-> | Hlink].
  { do 4 (eval_eqb; cbn [rewrite_pass]). f_equal.
    apply Hvalue; [reflexivity | now apply Habs]. }
  destruct (String.eqb_spec t "script") as [-> | Hscript].
  { do 4 (eval_eqb; cbn [rewrite_pass]). f_equal.
    apply Hvalue; [reflexivity | now apply Habs]. }
  destruct (String.eqb_spec t "img") as [-> | Himg].
  { do 4 (eval_eqb; cbn [rewrite_pass]). f_equal.
    apply Hvalue; [reflexivity | now apply Habs]. }
  destruct (String.eqb_spec t "a") as [-> | Ha].
  { do 4 (eval_eqb; cbn [rewrite_pass]). f_equal.
    apply Hvalue; [reflexivity | reflexivity]. }
  apply String.eqb_neq in Hlink, Hscript, Himg, Ha.
  cbn [rewrite_pass]. rewrite ?Hlink. cbn [rewrite_pass]. rewrite ?Hscript.
  cbn [rewrite_pass]. rewrite ?Himg. cbn [rewrite_pass]. rewrite ?Ha.
  f_equal. rewrite <- (map_pairs attrs) at 1. apply map_ext. intros [k v].
  unfold rewrite_value, in_context, context_attr.
  now rewrite Hlink, Hscript, Himg, Ha.
Qed.

Lemma plain_base_parts (basePath : string) :
  plain_base basePath = true ->
  free_of "$" basePath = true /\ free_of "<" basePath = true.
Proof.
  unfold plain_base. intros H. split; revert H; apply free_of_weaken;
    intros c Hc; cbn [mem] in Hc |- *; rewrite orb_false_r in Hc; rewrite Hc;
    now rewrite ?orb_true_r.
Qed.

Lemma plain_doc_pass_ok (doc : list node) :
  plain_doc doc = true ->
  forallb (pass_ok "link" "href") doc = true /\
  forallb (pass_ok "script" "src") doc = true /\
  forallb (pass_ok "img" "src") doc = true /\
  forallb (pass_ok "a" "href") doc = true.
Proof.
  unfold plain_doc. induction doc as [| n doc IH]; [now repeat split|].
  cbn [forallb]. intros H. apply andb_prop in H. destruct H as [Hn Hdoc].
  destruct (plain_pass_ok n Hn) as (H1 & H2 & H3 & H4).
  destruct (IH Hdoc) as (D1 & D2 & D3 & D4).
  now rewrite H1, H2, H3, H4, D1, D2, D3, D4.
Qed.




(** * Further properties *)

(** ** getMimeType *)

Lemma lower_ascii_idempotent (c : ascii) :
  Js.lower_ascii (Js.lower_ascii c) = Js.lower_ascii c.
Proof. destruct c as [[] [] [] [] [] [] [] []]; reflexivity. Qed.

Lemma lower_ascii_dot (c : ascii) :
  Ascii.eqb (Js.lower_ascii c) "." = Ascii.eqb c ".".
Proof. destruct c as [[] [] [] [] [] [] [] []]; reflexivity. Qed.

Lemma toLowerCase_idempotent (s : string) :
  Js.toLowerCase (Js.toLowerCase s) = Js.toLowerCase s.
Proof.
  induction s as [| c s IH]; [reflexivity|].
  cbn [Js.toLowerCase]. now rewrite lower_ascii_idempotent, IH.
Qed.

Lemma split_toLowerCase (s : string) :
  Js.split "." (Js.toLowerCase s) = List.map Js.toLowerCase (Js.split "." s).
Proof.
  induction s as [| c s IH]; [reflexivity|].
  cbn [Js.toLowerCase Js.split]. rewrite lower_ascii_dot, IH.
  destruct (Ascii.eqb c "."); [reflexivity|].
  destruct (Js.split "." s); reflexivity.
Qed.

Lemma pop_map_toLowerCase (parts : list string) :
  Js.pop (List.map Js.toLowerCase parts) = Js.toLowerCase (Js.pop parts).
Proof.
  unfold Js.pop. induction parts as [| p parts IH]; [reflexivity|].
  destruct parts as [| p' parts]; [reflexivity|]. exact IH.
Qed.

(** X1. The type of a file does not depend on the letter case of its name. *)
Theorem getMimeType_case_insensitive (filename : string) :
  getMimeType (Js.toLowerCase filename) = getMimeType filename.
Proof.
  unfold getMimeType.
  now rewrite split_toLowerCase, pop_map_toLowerCase, toLowerCase_idempotent.
Qed.

Lemma split_after_separator (sep : ascii) (a s : string) :
  exists seg rest,
    Js.split sep (a +:+ String sep s) = seg :: rest /\ rest <> [] /\
    List.last rest EmptyString = Js.pop (Js.split sep s).
Proof.
  induction a as [| c a IH].
  - exists EmptyString, (Js.split sep s).
    cbn [String.append Js.split]. rewrite Ascii.eqb_refl.
    split; [reflexivity|]. split; [apply split_nonempty | reflexivity].
  - destruct IH as (seg & rest & Hsplit & Hrest & Hlast).
    cbn [String.append Js.split]. rewrite Hsplit.
    destruct (Ascii.eqb c sep).
    + exists EmptyString, (seg :: rest). split; [reflexivity|]. split; [discriminate|].
      destruct rest; [contradiction | exact Hlast].
    + exists (String c seg), rest. now repeat split.
Qed.

(** X2. The type of a file is the type of what follows a dot of its name:
    directories and earlier dots do not count. *)
Theorem getMimeType_after_dot (a s : string) :
  getMimeType (a +:+ "." +:+ s) = getMimeType s.
Proof.
  unfold getMimeType.
  destruct (split_after_separator "." a s) as (seg & rest & Hsplit & Hrest & Hlast).
  change (a +:+ "." +:+ s) with (a +:+ String "." s).
  rewrite Hsplit. unfold Js.pop at 1.
  destruct rest as [| r rest]; [contradiction|].
  change (List.last (seg :: r :: rest) EmptyString) with (List.last (r :: rest) EmptyString).
  now rewrite Hlast.
Qed.

Lemma own_property_In (key value : string) (table : list (string * string)) :
  own_property key table = Some value -> In (key, value) table.
Proof.
  induction table as [| [k v] table IH]; [discriminate|].
  cbn [own_property]. destruct (String.eqb_spec k key) as [-> | _].
  - intros H. inversion H. now left.
  - intros H. right. now apply IH.
Qed.

(** X3. The type of a file contains [html], so that the file is rewritten
    when it is served, exactly when its extension is [html] or [htm]; and
    the type is a string but for the extensions [constructor] and
    [__proto__]. *)
Theorem getMimeType_html (filename : string) :
  (includes_val "html" (getMimeType filename) = Ok true <->
   extension filename = "html" \/ extension filename = "htm") /\
  (is_string (getMimeType filename) = false <->
   extension filename = "constructor" \/ extension filename = "__proto__").
Proof.
  unfold getMimeType. fold (extension filename).
  generalize (extension filename). intros ext. unfold mimeTypes_get.
  destruct (own_property ext mimeTypes) as [v|] eqn:Hown.
  - apply own_property_In in Hown. unfold mimeTypes in Hown. cbn [In] in Hown.
    decompose [or] Hown; clear Hown;
      match goal with
      | H : (_, _) = (_, _) |- _ => inversion H; subst ext v
      | H : False |- _ => destruct H
      end;
      (split; split; intros Hx;
       solve [ reflexivity | discriminate Hx | now left | now right
             | destruct Hx as [Hx | Hx]; discriminate Hx ]).
  - destruct (String.eqb_spec ext "constructor") as [-> | Hc].
    { split; split; intros Hx;
        solve [ discriminate Hx | now left | reflexivity
              | destruct Hx as [Hx | Hx]; discriminate Hx ]. }
    destruct (String.eqb_spec ext "__proto__") as [-> | Hp].
    { split; split; intros Hx;
        solve [ discriminate Hx | now right | reflexivity
              | destruct Hx as [Hx | Hx]; discriminate Hx ]. }
    split; split; intros Hx.
    + discriminate Hx.
    + destruct Hx as [-> | ->]; discriminate Hown.
    + discriminate Hx.
    + destruct Hx as [Hx | Hx]; contradiction.
Qed.

(** ** generateSiteId *)

Lemma charAt_chars_made (i : nat) :
  (i < String.length chars)%nat ->
  String.length (charAt i chars) = 1 /\ made_of chars (charAt i chars) = true.
Proof.
  intros Hi. cbn in Hi.
  do 36 (destruct i as [| i]; [split; reflexivity|]).
  lia.
Qed.

Lemma length_append (a b : string) :
  String.length (a +:+ b) = String.length a + String.length b.
Proof. induction a as [| c a IH]; cbn; [reflexivity | now rewrite IH]. Qed.

Lemma made_of_append (cs a b : string) :
  made_of cs (a +:+ b) = made_of cs a && made_of cs b.
Proof.
  induction a as [| c a IH]; [reflexivity|].
  cbn [String.append made_of]. now rewrite IH, andb_assoc.
Qed.

Lemma generateSiteId_loop_shape (rand : nat -> nat) (i start : nat) :
  String.length (generateSiteId_loop rand start i) = i /\
  made_of chars (generateSiteId_loop rand start i) = true.
Proof.
  revert start. induction i as [| i IH]; intros start; [split; reflexivity|].
  cbn [generateSiteId_loop].
  destruct (charAt_chars_made (rand start mod String.length chars)) as [Hlen Hmade].
  { apply Nat.mod_upper_bound. discriminate. }
  destruct (IH (S start)) as [IHlen IHmade].
  rewrite length_append, made_of_append, Hlen, Hmade, IHlen, IHmade.
  split; reflexivity.
Qed.

(** X4. Whatever [Math.random] draws, a generated identifier has eight
    characters, each a lower-case letter or a digit. *)
Theorem generateSiteId_shape (rand : nat -> nat) (start : nat) :
  String.length (generateSiteId rand start) = 8 /\
  made_of "abcdefghijklmnopqrstuvwxyz0123456789" (generateSiteId rand start) = true.
Proof. apply generateSiteId_loop_shape. Qed.

(** ** findEntryPoint *)

(** X5. On a non-empty sequence whose types are strings, [findEntryPoint]
    returns a name, and that name is, up to letter case, the name of some
    entry. *)
Theorem findEntryPoint_names_an_entry (first : FileEntry) (others : list FileEntry) :
  Forall (fun f => is_string (type f) = true) (first :: others) ->
  exists n f,
    findEntryPoint (first :: others) = Ok n /\
    In f (first :: others) /\
    Js.toLowerCase n = Js.toLowerCase (name f).
Proof.
  intros Hstrings.
  destruct (List.find (fun entry => some_named entry (first :: others)) entryPoints)
    as [entry|] eqn:Hfind.
  - destruct (findEntryPoint_priority _ _ Hfind) as [Hrun (f & Hin & Hname)].
    exists entry, f. split; [exact Hrun|]. split; [exact Hin|].
    now rewrite <- Hname, toLowerCase_idempotent.
  - pose proof (findEntryPoint_fallback first others Hstrings Hfind) as Hrun.
    cbv zeta in Hrun. rewrite Hrun.
    destruct (List.find html_like (first :: others)) as [f|] eqn:Hhtml.
    + exists (name f), f. split; [reflexivity|].
      split; [|reflexivity]. now apply (find_some _ _ Hhtml).
    + exists (name first), first. split; [reflexivity|]. split; [now left | reflexivity].
Qed.

(** X5 at the two files of a small site. *)
Lemma findEntryPoint_names_an_entry_witness :
  exists n f,
    findEntryPoint [entry_for "abc12345" "readme.txt" "read me";
                    entry_for "abc12345" "Home.HTML" "<p>home</p>"] = Ok n /\
    In f [entry_for "abc12345" "readme.txt" "read me";
          entry_for "abc12345" "Home.HTML" "<p>home</p>"] /\
    Js.toLowerCase n = Js.toLowerCase (name f).
Proof.
  apply (findEntryPoint_names_an_entry
           (entry_for "abc12345" "readme.txt" "read me")
           [entry_for "abc12345" "Home.HTML" "<p>home</p>"]).
  repeat constructor.
Defined.

Lemma some_named_Permutation (entry : string) (files files' : list FileEntry) :
  Permutation files files' -> some_named entry files = some_named entry files'.
Proof.
  unfold some_named. induction 1 as [| x l l' _ IH | x y l | l l' l'' _ IH1 _ IH2].
  - reflexivity.
  - cbn [existsb]. now rewrite IH.
  - cbn [existsb]. now rewrite !orb_assoc, (orb_comm (String.eqb _ entry)).
  - now rewrite IH1.
Qed.

Lemma find_same {A} (f g : A -> bool) (l : list A) :
  (forall x, f x = g x) -> List.find f l = List.find g l.
Proof.
  intros Hfg. induction l as [| x l IH]; [reflexivity|].
  cbn [List.find]. now rewrite Hfg, IH.
Qed.

(** X6. When a name of the priority list is matched, the result does not
    depend on the order of the files, nor on their types. *)
Theorem findEntryPoint_priority_any_order (files files' : list FileEntry) (entry : string) :
  Permutation files files' ->
  List.find (fun entry => some_named entry files) entryPoints = Some entry ->
  findEntryPoint files = Ok entry /\ findEntryPoint files' = Ok entry.
Proof.
  intros Hperm Hfind. split; [now apply findEntryPoint_priority|].
  apply findEntryPoint_priority.
  rewrite <- Hfind. apply find_same. intros e. symmetry.
  now apply some_named_Permutation.
Qed.

(** X6 at a site whose index comes last, behind a file without a string
    type. *)
Lemma findEntryPoint_priority_any_order_witness :
  findEntryPoint [entry_for "abc12345" "constructor" "function";
                  entry_for "abc12345" "main.html" "<p>main</p>";
                  entry_for "abc12345" "INDEX.htm" "<p>index</p>"] = Ok "index.htm" /\
  findEntryPoint [entry_for "abc12345" "INDEX.htm" "<p>index</p>";
                  entry_for "abc12345" "constructor" "function";
                  entry_for "abc12345" "main.html" "<p>main</p>"] = Ok "index.htm".
Proof.
  apply (findEntryPoint_priority_any_order _ _ "index.htm").
  - apply Permutation_sym.
    apply (Permutation_cons_append
             [entry_for "abc12345" "constructor" "function";
              entry_for "abc12345" "main.html" "<p>main</p>"]
             (entry_for "abc12345" "INDEX.htm" "<p>index</p>")).
  - vm_compute. reflexivity.
Defined.

(** ** extractZip *)

Lemma under_site_r2Key (siteId filename : string) :
  under_site siteId (r2Key siteId filename) = true.
Proof.
  unfold under_site, r2Key.
  rewrite (startsWith_cancel "sites/"), (startsWith_cancel siteId). reflexivity.
Qed.

Lemma not_under_site (siteId key filename : string) :
  under_site siteId key = false -> key <> r2Key siteId filename.
Proof.
  intros Hkey ->. now rewrite under_site_r2Key in Hkey.
Qed.

Lemma extractZip_loop_other_keys (siteId key : string)
    (members : list (string * ZipObject)) :
  under_site siteId key = false ->
  forall files b, snd (extractZip_loop members siteId files b) !! key = b !! key.
Proof.
  intros Hkey. induction members as [| [n z] members IH]; intros files b; [reflexivity|].
  cbn [extractZip_loop]. destruct (dir z); cbn [negb]; [apply IH|].
  unfold bind at 1, lift. destruct (async_uint8array z) as [c | e]; [|reflexivity].
  unfold bind, bucket_put.
  match goal with
  | |- snd (extractZip_loop _ _ ?fs ?b1) !! _ = _ =>
      rewrite (IH fs b1)
  end.
  apply lookup_insert_ne. intros Heq. symmetry in Heq. revert Heq.
  now apply not_under_site.
Qed.

(** X7. Whether it succeeds or throws, extraction leaves every key outside
    [sites/<siteId>/] as it was. *)
Theorem extractZip_other_sites (file : File) (siteId key : string)
    (b : gmap string R2Object) :
  under_site siteId key = false ->
  snd (extractZip file siteId b) !! key = b !! key.
Proof.
  intros Hkey. unfold extractZip, bind, lift.
  destruct (loadAsync file) as [members | e]; [|reflexivity].
  now apply extractZip_loop_other_keys.
Qed.

(** X7 at the extraction of a second site next to the first. *)
Lemma extractZip_other_sites_witness :
  snd (extractZip (mkFile "application/zip" 90 (Ok logo_members)) "zzz00000" index_only)
    !! "sites/abc12345/index.html" = index_only !! "sites/abc12345/index.html".
Proof.
  apply (extractZip_other_sites (mkFile "application/zip" 90 (Ok logo_members))
           "zzz00000" "sites/abc12345/index.html" index_only).
  vm_compute. reflexivity.
Defined.

Lemma extractZip_loop_app (siteId : string) (pre rest : list (string * ZipObject)) :
  Forall decompresses pre ->
  forall files b,
    extractZip_loop (pre ++ rest) siteId files b =
      extractZip_loop rest siteId (files ++ extracted siteId pre)%list (stored siteId pre b).
Proof.
  induction 1 as [| [n z] pre Hd _ IH]; intros files b.
  - cbn. now rewrite List.app_nil_r.
  - cbn [app extractZip_loop extracted stored]. unfold decompresses in Hd. cbn in Hd.
    destruct (dir z); cbn [negb]; [apply IH|].
    destruct (Hd eq_refl) as [c Hc]. rewrite Hc.
    unfold bind at 1, lift. unfold bind at 1, bucket_put.
    rewrite IH. now rewrite <- List.app_assoc.
Qed.



(** ** handleZipUpload *)

Section UploadOutcomes.

Variable JSON_stringify : jsdata -> string.
Variable error_message : exn -> string.
Variable formatBytes : Z -> string.
Variable now : string.
Variable rand : nat -> nat.

Local Abbreviation upload :=
  (handleZipUpload JSON_stringify error_message formatBytes now rand).
Local Abbreviation failure e :=
  (jsonResponse JSON_stringify (DObj [("error", DStr (error_message e))]) 500).

Lemma handleZipUpload_rejected (request : Request) (MAX_FILE_SIZE : option Z)
    (b : gmap string R2Object) :
  accepted request MAX_FILE_SIZE = None ->
  exists r,
    upload request MAX_FILE_SIZE b = (Ok r, b) /\
    (status r = 400 \/ (status r = 500 /\ content_type request = None)).
Proof.
  unfold accepted, handleZipUpload, try_catch. intros Hrejected.
  destruct (content_type request) as [ct|]; [|eexists; split; [reflexivity | now right]].
  destruct (Js.includes "multipart/form-data" ct); cbn [negb andb] in *;
    [|eexists; split; [reflexivity | now left]].
  destruct (siteName request) as [[| c n] |];
    (destruct (zipfile request) as [file|]; [|eexists; split; [reflexivity | now left]];
     destruct (String.eqb (file_type file) "application/zip"); cbn [negb andb] in *;
       [|eexists; split; [reflexivity | now left]];
     fold (maxSize_of MAX_FILE_SIZE);
     destruct (maxSize_of MAX_FILE_SIZE <? file_size file)%Z; cbn [negb] in *;
       [eexists; split; [reflexivity | now left] | discriminate Hrejected]).
Qed.

Lemma handleZipUpload_accepted (request : Request) (MAX_FILE_SIZE : option Z)
    (b : gmap string R2Object) (file : File) :
  accepted request MAX_FILE_SIZE = Some file ->
  zipfile request = Some file /\
  exists success : list FileEntry -> string -> Response,
    (forall files entryPoint, status (success files entryPoint) = 200) /\
    upload request MAX_FILE_SIZE b =
      match extractZip file (upload_siteId rand request) b with
      | (Ok files, b1) =>
          match findEntryPoint files with
          | Ok entryPoint =>
              (Ok (success files entryPoint),
               <[config_key (upload_siteId rand request) :=
                   mkObject (JSON_stringify
                               (siteConfig now (upload_siteId rand request)
                                  (upload_name rand request) files entryPoint
                                  (origin request))) None]> b1)
          | Throw e => (Ok (failure e), b1)
          end
      | (Throw e, b1) => (Ok (failure e), b1)
      end.
Proof.
  unfold accepted, handleZipUpload, try_catch, upload_siteId, upload_name.
  intros Haccepted.
  destruct (content_type request) as [ct|]; [|discriminate Haccepted].
  destruct (zipfile request) as [file'|]; [|discriminate Haccepted].
  destruct (Js.includes "multipart/form-data" ct); cbn [negb andb] in *;
    [|discriminate Haccepted].
  destruct (String.eqb (file_type file') "application/zip"); cbn [negb andb] in *;
    [|discriminate Haccepted].
  fold (maxSize_of MAX_FILE_SIZE).
  destruct (maxSize_of MAX_FILE_SIZE <? file_size file')%Z; cbn [negb] in *;
    [discriminate Haccepted|].
  inversion Haccepted; subst file'. split; [reflexivity|].
  destruct (siteName request) as [[| c n] |];
    (eexists (fun files entryPoint => jsonResponse JSON_stringify _ 200);
     split; [reflexivity|];
     unfold bind, lift, bucket_put, ret;
     destruct (extractZip file _ b) as [[files | e] b1]; [|reflexivity];
     destruct (findEntryPoint files) as [entryPoint | e]; reflexivity).
Qed.

Lemma handleZipUpload_ok_inv (request : Request) (MAX_FILE_SIZE : option Z)
    (b b' : gmap string R2Object) (r : Response) :
  upload request MAX_FILE_SIZE b = (Ok r, b') ->
  status r = 200 ->
  exists file files b1 entryPoint,
    accepted request MAX_FILE_SIZE = Some file /\
    extractZip file (upload_siteId rand request) b = (Ok files, b1) /\
    findEntryPoint files = Ok entryPoint /\
    b' = <[config_key (upload_siteId rand request) :=
             mkObject (JSON_stringify
                         (siteConfig now (upload_siteId rand request)
                            (upload_name rand request) files entryPoint
                            (origin request))) None]> b1.
Proof.
  intros Hrun Hstatus.
  destruct (accepted request MAX_FILE_SIZE) as [file|] eqn:Haccepted.
  - destruct (handleZipUpload_accepted request MAX_FILE_SIZE b file Haccepted)
      as (_ & success & _ & Heq).
    rewrite Heq in Hrun.
    destruct (extractZip file (upload_siteId rand request) b) as [[files | e] b1]
      eqn:Hextract; [|inversion Hrun; subst; discriminate Hstatus].
    destruct (findEntryPoint files) as [entryPoint | e] eqn:Hentry;
      [|inversion Hrun; subst; discriminate Hstatus].
    inversion Hrun. now exists file, files, b1, entryPoint.
  - destruct (handleZipUpload_rejected request MAX_FILE_SIZE b Haccepted)
      as (r' & Heq & Hr').
    rewrite Heq in Hrun. inversion Hrun; subst r'.
    destruct Hr' as [Hr' | [Hr' _]]; congruence.
Qed.

(** X9. An upload is always answered, with 200, 400 or 500, and never
    throws.  An upload answered 400 leaves the bucket as it was; a request
    without a content type is answered 500, not 400, and leaves the bucket as
    it was; an upload answered 200 has written the manifest of its site. *)
Theorem handleZipUpload_always_answers (request : Request) (MAX_FILE_SIZE : option Z)
    (b : gmap string R2Object) :
  exists r b',
    upload request MAX_FILE_SIZE b = (Ok r, b') /\
    (status r = 200 \/ status r = 400 \/ status r = 500) /\
    (status r = 400 -> b' = b) /\
    (content_type request = None -> status r = 500 /\ b' = b) /\
    (status r = 200 -> is_Some (b' !! config_key (upload_siteId rand request))).
Proof.
  destruct (accepted request MAX_FILE_SIZE) as [file|] eqn:Haccepted.
  - assert (Htyped : content_type request <> None).
    { intros Hnone. unfold accepted in Haccepted. now rewrite Hnone in Haccepted. }
    destruct (handleZipUpload_accepted request MAX_FILE_SIZE b file Haccepted)
      as (_ & success & Hsuccess & Heq).
    rewrite Heq.
    destruct (extractZip file (upload_siteId rand request) b) as [[files | e] b1].
    + destruct (findEntryPoint files) as [entryPoint | e].
      * eexists _, _. split; [reflexivity|]. rewrite Hsuccess.
        repeat split; try discriminate; try contradiction; auto.
        intros _. rewrite lookup_insert_eq. now eexists.
      * eexists _, _. split; [reflexivity|].
        repeat split; try discriminate; try contradiction; auto.
    + eexists _, _. split; [reflexivity|].
      repeat split; try discriminate; try contradiction; auto.
  - destruct (handleZipUpload_rejected request MAX_FILE_SIZE b Haccepted)
      as (r & Heq & Hr).
    exists r, b. split; [exact Heq|].
    destruct Hr as [Hr | [Hr Hnone]]; rewrite Hr.
    + repeat split; try discriminate; auto.
      exfalso. revert Heq Hr. unfold handleZipUpload, try_catch.
      rewrite H. intros Heq Hr. inversion Heq; subst r. discriminate Hr.
    + repeat split; try discriminate; auto.
Qed.

Lemma extractZip_folders (file : File) (siteId : string) (b : gmap string R2Object)
    (members : list (string * ZipObject)) :
  loadAsync file = Ok members ->
  Forall (fun member => dir (snd member) = true) members ->
  extractZip file siteId b = (Ok [], b).
Proof.
  intros Hload Hdirs. unfold extractZip, bind, lift. rewrite Hload. clear Hload.
  induction Hdirs as [| [n z] members Hd _ IH]; [reflexivity|].
  cbn [extractZip_loop]. cbn in Hd. rewrite Hd. exact IH.
Qed.

(** X10. An accepted archive without a file in it, empty or all folders, is
    answered 500 with the message of the [TypeError] that [findEntryPoint]
    throws on the empty listing, and the bucket is left as it was. *)
Theorem handleZipUpload_no_files (request : Request) (MAX_FILE_SIZE : option Z)
    (b : gmap string R2Object) (file : File) (members : list (string * ZipObject)) :
  accepted request MAX_FILE_SIZE = Some file ->
  loadAsync file = Ok members ->
  Forall (fun member => dir (snd member) = true) members ->
  upload request MAX_FILE_SIZE b = (Ok (failure TypeError), b).
Proof.
  intros Haccepted Hload Hdirs.
  destruct (handleZipUpload_accepted request MAX_FILE_SIZE b file Haccepted)
    as (_ & success & _ & Heq).
  rewrite Heq, (extractZip_folders file _ b members Hload Hdirs). reflexivity.
Qed.

Lemma extractZip_failure (file : File) (siteId : string) (b : gmap string R2Object)
    (pre post : list (string * ZipObject)) (n : string) (z : ZipObject) (e : exn) :
  loadAsync file = Ok (pre ++ (n, z) :: post)%list ->
  Forall decompresses pre ->
  dir z = false -> async_uint8array z = Throw e ->
  extractZip file siteId b = (Throw e, stored siteId pre b).
Proof.
  intros Hload Hpre Hdir Hfail.
  unfold extractZip, bind at 1, lift. rewrite Hload.
  rewrite extractZip_loop_app by exact Hpre.
  cbn [extractZip_loop]. rewrite Hdir. cbn [negb].
  unfold bind, lift. now rewrite Hfail.
Qed.


(** X12. Whatever its outcome, an upload leaves every key outside
    [sites/<siteId>/], the keys of the site it draws, as it was: no upload
    touches the files or the manifest of another site. *)
Theorem handleZipUpload_other_sites (request : Request) (MAX_FILE_SIZE : option Z)
    (b : gmap string R2Object) (key : string) :
  under_site (upload_siteId rand request) key = false ->
  snd (upload request MAX_FILE_SIZE b) !! key = b !! key.
Proof.
  intros Hkey.
  destruct (accepted request MAX_FILE_SIZE) as [file|] eqn:Haccepted.
  - destruct (handleZipUpload_accepted request MAX_FILE_SIZE b file Haccepted)
      as (_ & success & _ & Heq).
    rewrite Heq.
    assert (Hframe : snd (extractZip file (upload_siteId rand request) b) !! key = b !! key).
    { unfold extractZip, bind, lift.
      destruct (loadAsync file) as [members | e]; [|reflexivity].
      now apply extractZip_loop_other_keys. }
    destruct (extractZip file (upload_siteId rand request) b) as [[files | e] b1];
      cbn [snd] in Hframe; [|exact Hframe].
    destruct (findEntryPoint files) as [entryPoint | e]; cbn [snd]; [|exact Hframe].
    rewrite lookup_insert_ne; [exact Hframe|].
    intros Heq'. symmetry in Heq'. revert Heq'. now apply not_under_site.
  - destruct (handleZipUpload_rejected request MAX_FILE_SIZE b Haccepted)
      as (r & Heq & _).
    now rewrite Heq.
Qed.

Lemma handleZipUpload_stores_member (request : Request) (MAX_FILE_SIZE : option Z)
    (b b' : gmap string R2Object) (r : Response) (file : File)
    (members : list (string * ZipObject)) (n : string) (z : ZipObject) (c : string) :
  upload request MAX_FILE_SIZE b = (Ok r, b') ->
  status r = 200 ->
  zipfile request = Some file ->
  loadAsync file = Ok members ->
  NoDup (List.map fst members) ->
  In (n, z) members -> dir z = false -> async_uint8array z = Ok c ->
  n <> "config.json" ->
  b' !! r2Key (upload_siteId rand request) n = Some (mkObject c (Some (getMimeType n))).
Proof.
  intros Hrun Hstatus Hfile Hload Hnd Hin Hdir Hc Hname.
  destruct (handleZipUpload_ok_inv request MAX_FILE_SIZE b b' r Hrun Hstatus)
    as (file' & files & b1 & entryPoint & Haccepted & Hextract & _ & Hb').
  destruct (handleZipUpload_accepted request MAX_FILE_SIZE b file' Haccepted)
    as (Hfile' & _).
  rewrite Hfile in Hfile'. inversion Hfile'; subst file'.
  set (siteId := upload_siteId rand request) in *.
  unfold extractZip, bind, lift in Hextract. rewrite Hload in Hextract.
  pose proof (extractZip_loop_inv _ _ _ _ _ _ Hextract) as Hall.
  rewrite (extractZip_loop_ok siteId members Hall) in Hextract.
  inversion Hextract as [[Hfiles Hb1]].
  pose proof (stored_lookup siteId members b n z c Hnd Hall Hin Hdir Hc) as Hstored.
  rewrite Hb1 in Hstored.
  rewrite Hb'. rewrite lookup_insert_ne; [exact Hstored|].
  unfold config_key. intros Hkey. apply r2Key_inj in Hkey. congruence.
Qed.


End UploadOutcomes.

(** X10 at an archive of two folders. *)
Lemma handleZipUpload_no_files_witness :
  handleZipUpload demo_stringify (fun _ => "error") (fun _ => "10 MB")
    "2024-01-01T00:00:00.000Z" (fun n => n) folders_request None index_only =
  (Ok (jsonResponse demo_stringify (DObj [("error", DStr "error")]) 500), index_only).
Proof.
  apply (handleZipUpload_no_files demo_stringify (fun _ => "error") (fun _ => "10 MB")
           "2024-01-01T00:00:00.000Z" (fun n => n) folders_request None index_only
           (mkFile "application/zip" 120
              (Ok [("css/", mkZipObject true (Ok EmptyString));
                   ("img/", mkZipObject true (Ok EmptyString))]))
           [("css/", mkZipObject true (Ok EmptyString));
            ("img/", mkZipObject true (Ok EmptyString))]).
  - reflexivity.
  - reflexivity.
  - repeat constructor.
Defined.


(** X12 at an upload into a bucket that holds another site. *)
Lemma handleZipUpload_other_sites_witness :
  snd (handleZipUpload demo_stringify (fun _ => "error") (fun _ => "10 MB")
         "2024-01-01T00:00:00.000Z" (fun n => n) demo_request None index_only)
    !! "sites/abc12345/index.html" = index_only !! "sites/abc12345/index.html".
Proof.
  apply (handleZipUpload_other_sites demo_stringify (fun _ => "error") (fun _ => "10 MB")
           "2024-01-01T00:00:00.000Z" (fun n => n) demo_request None index_only
           "sites/abc12345/index.html").
  vm_compute. reflexivity.
Defined.


(** ** serveHostedSite *)

Lemma split_append (sep : ascii) (a s : string) :
  Js.split sep (a +:+ String sep s) = (Js.split sep a ++ Js.split sep s)%list.
Proof.
  induction a as [| c a IH].
  - cbn [String.append Js.split]. now rewrite Ascii.eqb_refl.
  - change (String c a +:+ String sep s) with (String c (a +:+ String sep s)).
    cbn [Js.split]. rewrite IH.
    destruct (Ascii.eqb c sep); [reflexivity|].
    pose proof (split_nonempty sep a) as Hne.
    destruct (Js.split sep a) as [| seg rest]; [contradiction | reflexivity].
Qed.

Lemma pathParts_append (a s : string) :
  pathParts (a +:+ "/" +:+ s) = (pathParts a ++ pathParts s)%list.
Proof.
  unfold pathParts. change (a +:+ "/" +:+ s) with (a +:+ String "/" s).
  now rewrite split_append, List.filter_app.
Qed.

Lemma serveHostedSite_pathParts (pathname pathname' : string) :
  pathParts pathname = pathParts pathname' ->
  serveHostedSite pathname = serveHostedSite pathname'.
Proof.
  intros Hparts. unfold serveHostedSite, siteId_of, requestedFile_of.
  now rewrite Hparts.
Qed.

(** X14. The handler reads a path by its non-empty segments only: a doubled
    slash anywhere in the path and a slash at its end change nothing of the
    answer. *)
Theorem serveHostedSite_slashes (p q : string) (b : gmap string R2Object) :
  serveHostedSite (p +:+ "//" +:+ q) b = serveHostedSite (p +:+ "/" +:+ q) b /\
  serveHostedSite (p +:+ "/") b = serveHostedSite p b.
Proof.
  split.
  - rewrite (serveHostedSite_pathParts (p +:+ "//" +:+ q) (p +:+ "/" +:+ q));
      [reflexivity|].
    change (p +:+ "//" +:+ q) with (p +:+ "/" +:+ (EmptyString +:+ "/" +:+ q)).
    now rewrite !pathParts_append.
  - rewrite (serveHostedSite_pathParts (p +:+ "/") p); [reflexivity|].
    change (p +:+ "/") with (p +:+ "/" +:+ EmptyString).
    rewrite pathParts_append. apply List.app_nil_r.
Qed.


(** ** fixRelativePaths on any text *)

Lemma match_lit_sound (lit : string) (st st' : mstate) (k : cont) :
  match_lit lit st k = Some st' ->
  exists r, rest st = lit +:+ r /\
            k (mkState (consumed st +:+ lit) r (caps st)) = Some st'.
Proof.
  revert st. induction lit as [| a lit IH]; intros st H.
  - exists (rest st). split; [reflexivity|].
    cbn [match_lit] in H. rewrite app_nil_r. now destruct st.
  - cbn [match_lit] in H. destruct (rest st) as [| b r] eqn:Hrest; [discriminate H|].
    destruct (Ascii.eqb_spec a b) as [<- | _]; [|discriminate H].
    destruct (IH _ H) as (r' & Hr' & Hk). cbn [rest consumed caps] in Hr', Hk.
    exists r'. split; [now rewrite Hr'|].
    unfold snoc in Hk. now rewrite app_assoc in Hk.
Qed.

Lemma match_class_sound (cl : cclass) (st st' : mstate) (k : cont) :
  match_class cl st k = Some st' ->
  exists b r, rest st = String b r /\
              k (mkState (consumed st +:+ String b EmptyString) r (caps st)) = Some st'.
Proof.
  unfold match_class. intros H.
  destruct (rest st) as [| b r]; [discriminate H|].
  destruct (in_class cl b); [|discriminate H].
  now exists b, r.
Qed.

Lemma match_star_sound (cl : cclass) (done input : string) (cs : gmap nat string)
    (k : cont) (st' : mstate) :
  match_star cl done input cs k = Some st' ->
  exists p r, input = p +:+ r /\ k (mkState (done +:+ p) r cs) = Some st'.
Proof.
  revert done. induction input as [| b input IH]; intros done H.
  - exists EmptyString, EmptyString. split; [reflexivity|].
    rewrite app_nil_r. exact H.
  - cbn [match_star] in H.
    assert (Hhere : k (mkState done (String b input) cs) = Some st' ->
                    exists p r, String b input = p +:+ r /\
                                k (mkState (done +:+ p) r cs) = Some st').
    { intros Hk. exists EmptyString, (String b input). split; [reflexivity|].
      now rewrite app_nil_r. }
    destruct (in_class cl b); [|now apply Hhere].
    destruct (match_star cl (snoc done b) input cs k) as [st1|] eqn:Hlonger;
      [|now apply Hhere].
    inversion H; subst st1.
    destruct (IH _ Hlonger) as (p & r & Hsplit & Hk).
    exists (String b p), r. split; [cbn; now rewrite Hsplit|].
    unfold snoc in Hk. now rewrite app_assoc in Hk.
Qed.

(** What a match of one of the four patterns is made of: the three groups,
    one after the other, the first of them not empty. *)
Lemma exec_sound (tag attr : string) (exclude : regex) (s : string) (st : mstate) :
  exec (attribute_pattern tag attr exclude) s = Some st ->
  exists g1 g2 g3,
    g1 <> EmptyString /\
    s = (g1 +:+ g2 +:+ g3) +:+ rest st /\
    consumed st = g1 +:+ g2 +:+ g3 /\
    capture (caps st) 1 = g1 /\ capture (caps st) 2 = g2 /\ capture (caps st) 3 = g3.
Proof.
  rewrite exec_unfold. intros H.
  apply match_lit_sound in H. destruct H as (r1 & Hs & H).
  cbn [rest consumed caps String.append] in Hs, H.
  apply match_star_sound in H. destruct H as (p & r2 & Hr1 & H).
  unfold attr_tail in H.
  apply match_lit_sound in H. destruct H as (r3 & Hr2 & H).
  cbn [rest consumed caps] in Hr2, H.
  apply match_class_sound in H. destruct H as (q & r4 & Hr3 & H).
  cbn [rest consumed caps] in Hr3, H.
  unfold after_group1 in H. cbn [rmatch consumed rest caps String.append] in H.
  match type of H with
  | match ?look with Some _ => None | None => _ end = _ =>
      destruct look; [discriminate H|]
  end.
  apply match_star_sound in H. destruct H as (v & r5 & Hr4 & H).
  cbn [consumed rest caps String.append] in H.
  apply match_class_sound in H. destruct H as (q' & r6 & Hr5 & H).
  cbn [consumed rest caps String.append] in Hr5, H.
  inversion H; subst st. clear H. cbn [consumed rest caps].
  set (g1 := ((("<" +:+ tag) +:+ p) +:+ attr +:+ "=") +:+ String q EmptyString).
  exists g1, v, (String q' EmptyString).
  split; [|split; [|split; [|split; [|split]]]].
  - unfold g1. cbn [String.append]. discriminate.
  - rewrite Hs, Hr1, Hr2, Hr3, Hr4, Hr5. unfold g1.
    rewrite !app_assoc. cbn [String.append]. reflexivity.
  - unfold g1. rewrite !app_assoc. reflexivity.
  - unfold capture. rewrite lookup_insert_ne by discriminate.
    rewrite lookup_insert_ne by discriminate. now rewrite lookup_insert_eq.
  - unfold capture. rewrite lookup_insert_ne by discriminate.
    now rewrite lookup_insert_eq.
  - unfold capture. now rewrite lookup_insert_eq.
Qed.

Lemma insertions_prefix (base p s s' : string) :
  insertions base s s' -> insertions base (p +:+ s) (p +:+ s').
Proof.
  induction 1 as [s | s s1 s2 (x & y & Hs & Hs1) _ IH]; [apply rtc_refl|].
  eapply rtc_l; [|exact IH].
  exists (p +:+ x), y. split; [now rewrite Hs, app_assoc | now rewrite Hs1, !app_assoc].
Qed.

Lemma length_append_lt (m s : string) :
  m <> EmptyString -> (String.length s < String.length (m +:+ s))%nat.
Proof.
  intros Hm. rewrite length_append. destruct m; [contradiction | cbn; lia].
Qed.

(** One replacement only puts copies of the base into the text. *)
Lemma replace_from_insertions (tag attr : string) (exclude : regex) (basePath : string) :
  group_count exclude = 0 -> free_of "$" basePath = true ->
  forall (n : nat) (s before : string),
    (String.length s < n)%nat ->
    insertions basePath s
      (replace_from (attribute_pattern tag attr exclude) (template basePath) before s 0).
Proof.
  intros Hgroups Hbase. induction n as [| n IH]; intros s before Hlen; [lia|].
  destruct (exec (attribute_pattern tag attr exclude) s) as [st|] eqn:Hexec.
  - destruct (exec_sound tag attr exclude s st Hexec)
      as (g1 & g2 & g3 & Hg1 & Hs & Hconsumed & Hc1 & Hc2 & Hc3).
    assert (Hm : g1 +:+ g2 +:+ g3 <> EmptyString).
    { destruct g1; [contradiction | discriminate]. }
    rewrite Hs in Hexec |- *.
    rewrite (replace_hit _ _ before _ _ st Hm Hexec Hconsumed eq_refl).
    replace (group_count (attribute_pattern tag attr exclude)) with 3
      by (unfold attribute_pattern; cbn [group_count]; now rewrite Hgroups).
    rewrite (GetSubstitution_template (Lit EmptyString) eq_refl) by exact Hbase.
    rewrite Hc1, Hc2, Hc3.
    eapply rtc_l.
    + exists g1, (g2 +:+ g3 +:+ rest st). split; [now rewrite !app_assoc | reflexivity].
    + replace (g1 +:+ basePath +:+ g2 +:+ g3 +:+ rest st)
        with ((g1 +:+ basePath +:+ g2 +:+ g3) +:+ rest st)
        by now rewrite !app_assoc.
      apply insertions_prefix. apply IH.
      pose proof (length_append_lt _ (rest st) Hm) as Hshorter.
      rewrite <- Hs in Hshorter. lia.
  - destruct s as [| c s]; [cbn [replace_from]; rewrite Hexec; apply rtc_refl|].
    rewrite (replace_miss _ _ _ _ _ Hexec).
    apply (insertions_prefix basePath (String c EmptyString)).
    apply IH. cbn in Hlen. lia.
Qed.

Lemma replace_insertions (tag attr : string) (exclude : regex) (basePath s : string) :
  group_count exclude = 0 -> free_of "$" basePath = true ->
  insertions basePath s
    (replace (attribute_pattern tag attr exclude) (template basePath) s).
Proof.
  intros Hgroups Hbase.
  now apply (replace_from_insertions tag attr exclude basePath Hgroups Hbase
               (S (String.length s))); lia.
Qed.

Lemma insertions_length (base s s' : string) :
  insertions base s s' ->
  exists n, String.length s' = (String.length s + n * String.length base)%nat.
Proof.
  induction 1 as [s | s s1 s2 (x & y & Hs & Hs1) _ (n & IH)]; [now exists 0|].
  exists (S n). rewrite IH, Hs, Hs1, !length_append. lia.
Qed.

Lemma insertions_empty (s s' : string) : insertions EmptyString s s' -> s' = s.
Proof.
  induction 1 as [s | s s1 s2 (x & y & Hs & Hs1) _ IH]; [reflexivity|].
  rewrite IH, Hs, Hs1. reflexivity.
Qed.

Lemma fixRelativePaths_insertions (html basePath : string) :
  free_of "$" basePath = true ->
  insertions basePath html (fixRelativePaths html basePath).
Proof.
  intros Hbase. unfold fixRelativePaths, link_href, script_src, img_src, a_href.
  eapply rtc_trans; [|apply replace_insertions; [reflexivity | exact Hbase]].
  eapply rtc_trans; [|apply replace_insertions; [reflexivity | exact Hbase]].
  eapply rtc_trans; [|apply replace_insertions; [reflexivity | exact Hbase]].
  apply replace_insertions; [reflexivity | exact Hbase].
Qed.

(** X16. On any text at all, well-formed or not, the rewriter only puts
    copies of the base into it, when the base has no dollar sign: the result
    is the text with the base inserted at some places, so no character of
    the page is removed, replaced or moved, and the result is longer by a
    multiple of the length of the base. *)
Theorem fixRelativePaths_only_inserts (html basePath : string) :
  free_of "$" basePath = true ->
  insertions basePath html (fixRelativePaths html basePath) /\
  exists n, String.length (fixRelativePaths html basePath) =
            (String.length html + n * String.length basePath)%nat.
Proof.
  intros Hbase.
  pose proof (fixRelativePaths_insertions html basePath Hbase) as Hall.
  split; [exact Hall | now apply insertions_length].
Qed.

(** X16 at a tag that is never closed. *)
Lemma fixRelativePaths_only_inserts_witness :
  insertions "/s/abc/" "<img src='a.png" (fixRelativePaths "<img src='a.png" "/s/abc/") /\
  exists n, String.length (fixRelativePaths "<img src='a.png" "/s/abc/") =
            (String.length "<img src='a.png" + n * String.length "/s/abc/")%nat.
Proof.
  apply (fixRelativePaths_only_inserts "<img src='a.png" "/s/abc/"). reflexivity.
Defined.

(** X17. With the empty base the rewriter is the identity on every text. *)
Theorem fixRelativePaths_empty_base (html : string) :
  fixRelativePaths html EmptyString = html.
Proof.
  apply insertions_empty. now apply fixRelativePaths_insertions.
Qed.

Lemma replace_inert (tag attr : string) (exclude : regex) (tmpl s : string) :
  free_of "<" s = true ->
  replace (attribute_pattern tag attr exclude) tmpl s = s.
Proof.
  intros Hfree. unfold replace.
  rewrite <- (app_nil_r s) at 1.
  rewrite copy_inert by exact Hfree.
  cbn [replace_from].
  destruct (exec (attribute_pattern tag attr exclude) EmptyString) as [st|] eqn:Hexec;
    [|apply app_nil_r].
  destruct (exec_sound tag attr exclude _ _ Hexec) as (g1 & g2 & g3 & Hg1 & Hs & _).
  destruct g1; [contradiction | discriminate Hs].
Qed.

(** X18. A text without an opening angle bracket is returned as it is,
    whatever the base, dollar signs included. *)
Theorem fixRelativePaths_no_tags (html basePath : string) :
  free_of "<" html = true -> fixRelativePaths html basePath = html.
Proof.
  intros Hfree. unfold fixRelativePaths, link_href, script_src, img_src, a_href.
  rewrite (replace_inert "link" "href" _ _ html Hfree).
  rewrite (replace_inert "script" "src" _ _ html Hfree).
  rewrite (replace_inert "img" "src" _ _ html Hfree).
  apply (replace_inert "a" "href" _ _ html Hfree).
Qed.

(** X18 at a line of a stylesheet. *)
Lemma fixRelativePaths_no_tags_witness :
  fixRelativePaths "body { background: url('a.png') }" "/s/$&/" =
    "body { background: url('a.png') }".
Proof.
  apply (fixRelativePaths_no_tags "body { background: url('a.png') }" "/s/$&/").
  reflexivity.
Defined.

(** ** listSites *)

Lemma listed_In (prefix key : string) (b : gmap string R2Object) :
  In key (listed prefix b) <-> Js.startsWith prefix key = true /\ is_Some (b !! key).
Proof.
  unfold listed. rewrite filter_In.
  rewrite <- list_elem_of_In, (merge_sort_Permutation String.le), list_elem_of_In.
  rewrite in_map_iff. split.
  - intros [([k object] & Hk & Hin) Hprefix]. cbn in Hk. subst k.
    split; [exact Hprefix|]. exists object.
    now apply elem_of_map_to_list, list_elem_of_In.
  - intros [Hprefix [object Hobject]]. split; [|exact Hprefix].
    exists (key, object). split; [reflexivity|].
    now apply list_elem_of_In, elem_of_map_to_list.
Qed.

Section ListingProperties.

Variable JSON_stringify : jsdata -> string.
Variable JSON_parse : string -> result jsdata.
Variable list_limit : nat.

Local Abbreviation is_config := (Js.endsWith "config.json").

Lemma bucket_list_all (prefix : string) (b : gmap string R2Object) :
  (length (listed prefix b) <= list_limit)%nat ->
  bucket_list list_limit prefix b = (Ok (listed prefix b), b).
Proof.
  intros Hlimit. unfold bucket_list. fold (listed prefix b).
  now rewrite firstn_all2.
Qed.

Lemma listSites_loop_throws (b : gmap string R2Object) (keys : list string)
    (key : string) :
  In key keys -> is_config key = true -> parses JSON_parse b key = false ->
  forall sites, exists e, listSites_loop JSON_parse keys sites b = (Throw e, b).
Proof.
  intros Hin Hconfig Hbad.
  induction keys as [| key0 keys IH]; intros sites; [destruct Hin|].
  cbn [listSites_loop].
  destruct (String.eqb_spec key0 key) as [-> | Hne].
  - rewrite Hconfig. unfold bind at 1, bucket_get. unfold parses in Hbad.
    destruct (b !! key) as [object|]; [|discriminate Hbad].
    unfold bind at 1, lift.
    destruct (JSON_parse (body object)) as [d | e]; [discriminate Hbad|].
    now exists e.
  - assert (Hrest : In key keys) by (destruct Hin; [contradiction | assumption]).
    destruct (is_config key0); [|now apply IH].
    unfold bind at 1, bucket_get.
    destruct (b !! key0) as [object|]; [|now apply IH].
    unfold bind at 1, lift.
    destruct (JSON_parse (body object)) as [d | e]; [now apply IH | now exists e].
Qed.

Lemma listSites_loop_lists (b : gmap string R2Object) (keys : list string) :
  forallb (fun key => negb (is_config key) || parses JSON_parse b key) keys = true ->
  forall sites, exists more,
    listSites_loop JSON_parse keys sites b = (Ok (sites ++ more)%list, b) /\
    forall key object d,
      In key keys -> is_config key = true -> b !! key = Some object ->
      JSON_parse (body object) = Ok d -> In d more.
Proof.
  induction keys as [| key0 keys IH]; intros Hall sites.
  - exists []. split; [cbn; now rewrite List.app_nil_r | intros ? ? ? []].
  - cbn [forallb] in Hall. apply andb_prop in Hall. destruct Hall as [Hkey0 Hall].
    cbn [listSites_loop].
    destruct (is_config key0) eqn:Hconfig; cbn [negb orb] in Hkey0.
    + unfold bind at 1, bucket_get. unfold parses in Hkey0.
      destruct (b !! key0) as [object0|] eqn:Hread.
      * unfold bind at 1, lift.
        destruct (JSON_parse (body object0)) as [d0 | e] eqn:Hparse; [|discriminate Hkey0].
        destruct (IH Hall (sites ++ [d0])%list) as (more & Hrun & Hmore).
        exists (d0 :: more). split.
        { rewrite Hrun. now rewrite <- List.app_assoc. }
        intros key object d [<- | Hin] Hc Hobject Hd.
        { left. congruence. }
        right. now apply (Hmore key object d).
      * destruct (IH Hall sites) as (more & Hrun & Hmore).
        exists more. split; [exact Hrun|].
        intros key object d [<- | Hin] Hc Hobject Hd; [congruence|].
        now apply (Hmore key object d).
    + destruct (IH Hall sites) as (more & Hrun & Hmore).
      exists more. split; [exact Hrun|].
      intros key object d [<- | Hin] Hc Hobject Hd; [congruence|].
      now apply (Hmore key object d).
Qed.

(** X19. The listing takes every stored object under [sites/] whose key ends
    in [config.json] for a manifest: when all of them hold text that
    [JSON.parse] takes and one call of [list] returns them all, the answer is
    200, the bucket is left as it was, and [sites] has the parsed text of
    each such object, whether or not its key is the key of a manifest. *)
Theorem listSites_lists_every_config (b : gmap string R2Object) :
  (length (listed "sites/" b) <= list_limit)%nat ->
  forallb (fun key => negb (is_config key) || parses JSON_parse b key)
    (listed "sites/" b) = true ->
  exists sites,
    listSites JSON_stringify JSON_parse list_limit b =
      (Ok (jsonResponse JSON_stringify (DObj [("sites", DArr sites)]) 200), b) /\
    forall key object d,
      Js.startsWith "sites/" key = true -> is_config key = true ->
      b !! key = Some object -> JSON_parse (body object) = Ok d ->
      In d sites.
Proof.
  intros Hlimit Hall.
  destruct (listSites_loop_lists b (listed "sites/" b) Hall []) as (sites & Hrun & Hsites).
  exists sites. split.
  - unfold listSites, bind at 1. rewrite (bucket_list_all "sites/" b Hlimit).
    unfold bind at 1. rewrite Hrun. reflexivity.
  - intros key object d Hprefix Hconfig Hobject Hd.
    apply (Hsites key object d); try assumption.
    apply listed_In. split; [exact Hprefix | now exists object].
Qed.

(** X20. The listing has no handler for errors: one stored object under
    [sites/] whose key ends in [config.json] and whose text [JSON.parse]
    refuses makes the whole listing throw. *)
Theorem listSites_throws_on_bad_config (b : gmap string R2Object)
    (key : string) (object : R2Object) (e : exn) :
  (length (listed "sites/" b) <= list_limit)%nat ->
  Js.startsWith "sites/" key = true -> is_config key = true ->
  b !! key = Some object -> JSON_parse (body object) = Throw e ->
  exists e', listSites JSON_stringify JSON_parse list_limit b = (Throw e', b).
Proof.
  intros Hlimit Hprefix Hconfig Hobject Hbad.
  assert (Hin : In key (listed "sites/" b)).
  { apply listed_In. split; [exact Hprefix | now exists object]. }
  assert (Hparses : parses JSON_parse b key = false).
  { unfold parses. now rewrite Hobject, Hbad. }
  destruct (listSites_loop_throws b _ key Hin Hconfig Hparses []) as [e' Hrun].
  exists e'. unfold listSites, bind at 1. rewrite (bucket_list_all "sites/" b Hlimit).
  unfold bind at 1. now rewrite Hrun.
Qed.

End ListingProperties.

(** X19 at a site that holds the settings file of a compiler. *)
Lemma listSites_lists_every_config_witness :
  exists sites,
    listSites demo_stringify demo_parse 1000 settings_site =
      (Ok (jsonResponse demo_stringify (DObj [("sites", DArr sites)]) 200), settings_site) /\
    forall key object d,
      Js.startsWith "sites/" key = true -> Js.endsWith "config.json" key = true ->
      settings_site !! key = Some object -> demo_parse (body object) = Ok d ->
      In d sites.
Proof.
  apply (listSites_lists_every_config demo_stringify demo_parse 1000 settings_site).
  - apply Nat.leb_le. vm_compute. reflexivity.
  - vm_compute. reflexivity.
Defined.

(** X20 at the same site, the settings file beginning with a comment. *)
Lemma listSites_throws_on_bad_config_witness :
  exists e',
    listSites demo_stringify demo_parse 1000 commented_site = (Throw e', commented_site).
Proof.
  apply (listSites_throws_on_bad_config demo_stringify demo_parse 1000 commented_site
           "sites/abc12345/tsconfig.json"
           (mkObject "// settings" (Some (VStr "application/json"))) DecodeError).
  - apply Nat.leb_le. vm_compute. reflexivity.
  - reflexivity.
  - reflexivity.
  - vm_compute. reflexivity.
  - reflexivity.
Defined.

(** ** fetch *)

Lemma endsWith_append (suffix p s : string) :
  Js.endsWith suffix s = true -> Js.endsWith suffix (p +:+ s) = true.
Proof.
  intros H. induction p as [| c p IH]; [exact H|].
  change (String c p +:+ s) with (String c (p +:+ s)).
  cbn [Js.endsWith]. rewrite IH. apply orb_true_r.
Qed.

Section WorkerProperties.

Variable JSON_stringify : jsdata -> string.
Variable JSON_parse : string -> result jsdata.
Variable error_message : exn -> string.
Variable formatBytes : Z -> string.
Variable now : string.
Variable rand : nat -> nat.
Variable list_limit : nat.
Variable createSiteFromZip : Request -> M Response.
Variable serveFrontendUI : M Response.

Local Abbreviation worker :=
  (fetch JSON_stringify JSON_parse error_message formatBytes now rand list_limit
     createSiteFromZip serveFrontendUI).

(** X21. A request for a path that begins with [/s/] is answered, whatever
    its method and whatever the two handlers that are not in this file do:
    the router never throws on it and the bucket is left as it was.  Any
    method but [OPTIONS] is answered by [serveHostedSite], a [POST] or a
    [DELETE] as well as a [GET]. *)
Theorem fetch_site_requests (method pathname : string) (request : Request)
    (MAX_FILE_SIZE : option Z) (b : gmap string R2Object) :
  Js.startsWith "/s/" pathname = true ->
  (exists r, worker method pathname request MAX_FILE_SIZE b = (Ok r, b)) /\
  (method <> "OPTIONS" ->
   worker method pathname request MAX_FILE_SIZE b = serveHostedSite pathname b).
Proof.
  intros Hprefix.
  assert (Hserve : String.eqb method "OPTIONS" = false ->
                   worker method pathname request MAX_FILE_SIZE b =
                     serveHostedSite pathname b).
  { intros Hmethod. unfold fetch. rewrite Hmethod, Hprefix.
    destruct (String.eqb_spec pathname "/api/upload") as [-> | _];
      [discriminate Hprefix|].
    destruct (String.eqb_spec pathname "/api/create-site") as [-> | _];
      [discriminate Hprefix|].
    destruct (String.eqb_spec pathname "/api/sites") as [-> | _];
      [discriminate Hprefix|].
    reflexivity. }
  split.
  - destruct (String.eqb method "OPTIONS") eqn:Hmethod.
    + unfold fetch. rewrite Hmethod. eexists. reflexivity.
    + rewrite (Hserve eq_refl).
      destruct (b !! r2Key (siteId_of pathname) (requestedFile_of pathname))
        as [object|] eqn:Hread.
      * rewrite (serveHostedSite_hit pathname b object Hread). eexists. reflexivity.
      * rewrite (serveHostedSite_miss pathname b Hread). eexists. reflexivity.
  - intros Hmethod. apply Hserve. now apply String.eqb_neq.
Qed.

(** X22. Upload, then list.  After an upload answered 200 whose archive held
    a file, other than [config.json] itself, with a name that ends in
    [config.json] and a text that [JSON.parse] refuses, a [GET] of
    [/api/sites] throws: the listing reads that file as a manifest, and
    neither the listing nor the router has a handler for the error. *)
Theorem upload_can_break_listing (request request' : Request)
    (MAX_FILE_SIZE MAX_FILE_SIZE' : option Z) (b b' : gmap string R2Object)
    (r : Response) (file : File) (members : list (string * ZipObject))
    (n : string) (z : ZipObject) (c : string) (e : exn) :
  handleZipUpload JSON_stringify error_message formatBytes now rand
    request MAX_FILE_SIZE b = (Ok r, b') ->
  status r = 200 ->
  zipfile request = Some file ->
  loadAsync file = Ok members ->
  NoDup (List.map fst members) ->
  In (n, z) members -> dir z = false -> async_uint8array z = Ok c ->
  Js.endsWith "config.json" n = true -> n <> "config.json" ->
  JSON_parse c = Throw e ->
  (length (listed "sites/" b') <= list_limit)%nat ->
  exists e', worker "GET" "/api/sites" request' MAX_FILE_SIZE' b' = (Throw e', b').
Proof.
  intros Hrun Hstatus Hfile Hload Hnd Hin Hdir Hc Hends Hname Hbad Hlimit.
  pose proof (handleZipUpload_stores_member JSON_stringify error_message formatBytes now rand
                request MAX_FILE_SIZE b b' r file members n z c
                Hrun Hstatus Hfile Hload Hnd Hin Hdir Hc Hname) as Hstored.
  set (key := r2Key (upload_siteId rand request) n) in *.
  assert (Hprefix : Js.startsWith "sites/" key = true).
  { unfold key, r2Key. apply startsWith_app. }
  assert (Hconfig : Js.endsWith "config.json" key = true).
  { unfold key, r2Key. rewrite <- !app_assoc. apply endsWith_append. exact Hends. }
  assert (Hin' : In key (listed "sites/" b')).
  { apply listed_In. split; [exact Hprefix | eexists; exact Hstored]. }
  assert (Hparses : parses JSON_parse b' key = false).
  { unfold parses. rewrite Hstored. cbn [body]. now rewrite Hbad. }
  destruct (listSites_loop_throws JSON_parse b' _ key Hin' Hconfig Hparses []) as [e' Hlist].
  exists e'. unfold fetch. cbn [String.eqb Ascii.eqb Bool.eqb andb].
  unfold listSites, bind at 1. rewrite (bucket_list_all list_limit "sites/" b' Hlimit).
  unfold bind at 1. now rewrite Hlist.
Qed.

End WorkerProperties.

(** X21 at a [POST] to the page of a site. *)
Lemma fetch_site_requests_witness :
  (exists r,
     fetch demo_stringify demo_parse (fun _ => "error") (fun _ => "10 MB")
       "2024-01-01T00:00:00.000Z" (fun n => n) 1000
       (fun _ => ret not_found) (ret not_found)
       "POST" "/s/abc12345/index.html" demo_request None index_only =
     (Ok r, index_only)) /\
  ("POST" <> "OPTIONS" ->
   fetch demo_stringify demo_parse (fun _ => "error") (fun _ => "10 MB")
     "2024-01-01T00:00:00.000Z" (fun n => n) 1000
     (fun _ => ret not_found) (ret not_found)
     "POST" "/s/abc12345/index.html" demo_request None index_only =
   serveHostedSite "/s/abc12345/index.html" index_only).
Proof.
  apply (fetch_site_requests demo_stringify demo_parse (fun _ => "error") (fun _ => "10 MB")
           "2024-01-01T00:00:00.000Z" (fun n => n) 1000
           (fun _ => ret not_found) (ret not_found)
           "POST" "/s/abc12345/index.html" demo_request None index_only).
  reflexivity.
Defined.

(** X22 at the upload of a page and a settings file that begins with a
    comment. *)
Lemma upload_can_break_listing_witness :
  exists e',
    fetch demo_stringify demo_parse (fun _ => "error") (fun _ => "10 MB")
      "2024-01-01T00:00:00.000Z" (fun n => n) 1000
      (fun _ => ret not_found) (ret not_found)
      "GET" "/api/sites" demo_request None (snd commented_upload) =
    (Throw e', snd commented_upload).
Proof.
  apply (upload_can_break_listing demo_stringify demo_parse (fun _ => "error")
           (fun _ => "10 MB") "2024-01-01T00:00:00.000Z" (fun n => n) 1000
           (fun _ => ret not_found) (ret not_found)
           commented_request demo_request None None ∅ (snd commented_upload)
           (match fst commented_upload with Ok r => r | Throw _ => not_found end)
           (mkFile "application/zip" 2048
              (Ok [("index.html", mkZipObject false (Ok "<p>home</p>"));
                   ("tsconfig.json", mkZipObject false (Ok "// settings"))]))
           [("index.html", mkZipObject false (Ok "<p>home</p>"));
            ("tsconfig.json", mkZipObject false (Ok "// settings"))]
           "tsconfig.json" (mkZipObject false (Ok "// settings")) "// settings"
           DecodeError).
  - vm_compute. reflexivity.
  - vm_compute. reflexivity.
  - reflexivity.
  - reflexivity.
  - apply (bool_decide_unpack _). vm_compute. exact I.
  - right. left. reflexivity.
  - reflexivity.
  - reflexivity.
  - reflexivity.
  - discriminate.
  - reflexivity.
  - apply Nat.leb_le. vm_compute. reflexivity.
Defined.

(** ** What an upload keeps, and what a request can reach *)

Lemma extractZip_loop_fresh_key (siteId key : string)
    (members : list (string * ZipObject)) :
  (forall n, In n (List.map fst members) -> key <> r2Key siteId n) ->
  forall files b, snd (extractZip_loop members siteId files b) !! key = b !! key.
Proof.
  induction members as [| [n z] members IH]; intros Hfresh files b; [reflexivity|].
  assert (Hrest : forall n', In n' (List.map fst members) -> key <> r2Key siteId n').
  { intros n' Hn'. apply Hfresh. now right. }
  cbn [extractZip_loop]. destruct (dir z); cbn [negb]; [now apply IH|].
  unfold bind at 1, lift. destruct (async_uint8array z) as [c | e]; [|reflexivity].
  unfold bind, bucket_put.
  match goal with
  | |- snd (extractZip_loop _ _ ?fs ?b1) !! _ = _ => rewrite (IH Hrest fs b1)
  end.
  apply lookup_insert_ne. intros Heq. apply (Hfresh n); [now left | now symmetry].
Qed.

Section UploadCollisions.

Variable JSON_stringify : jsdata -> string.
Variable error_message : exn -> string.
Variable formatBytes : Z -> string.
Variable now : string.
Variable rand : nat -> nat.

Local Abbreviation upload :=
  (handleZipUpload JSON_stringify error_message formatBytes now rand).

(** X23. The handler does not look whether the identifier it draws is in
    use, and it removes nothing: what the bucket held under the keys of the
    drawn site stays there, but for the keys of the members of the archive
    and the key of the manifest.  A file of an earlier site with the same
    identifier that the archive does not name becomes a file of the new
    site. *)
Theorem handleZipUpload_keeps_other_files (request : Request) (MAX_FILE_SIZE : option Z)
    (b : gmap string R2Object) (file : File) (members : list (string * ZipObject))
    (n : string) :
  zipfile request = Some file ->
  loadAsync file = Ok members ->
  ~ In n (List.map fst members) -> n <> "config.json" ->
  snd (upload request MAX_FILE_SIZE b) !! r2Key (upload_siteId rand request) n =
    b !! r2Key (upload_siteId rand request) n.
Proof.
  intros Hfile Hload Hfresh Hname.
  destruct (accepted request MAX_FILE_SIZE) as [file'|] eqn:Haccepted.
  - destruct (handleZipUpload_accepted JSON_stringify error_message formatBytes now rand
                request MAX_FILE_SIZE b file' Haccepted) as (Hfile' & success & _ & Heq).
    rewrite Hfile in Hfile'. inversion Hfile'; subst file'.
    rewrite Heq. set (siteId := upload_siteId rand request).
    assert (Hframe : snd (extractZip file siteId b) !! r2Key siteId n =
                     b !! r2Key siteId n).
    { unfold extractZip, bind, lift. rewrite Hload.
      apply extractZip_loop_fresh_key. intros m Hm Hkey.
      apply r2Key_inj in Hkey. now subst m. }
    destruct (extractZip file siteId b) as [[files | e] b1];
      cbn [snd] in Hframe; [|exact Hframe].
    destruct (findEntryPoint files) as [entryPoint | e]; cbn [snd]; [|exact Hframe].
    rewrite lookup_insert_ne; [exact Hframe|].
    unfold config_key. intros Hkey. apply r2Key_inj in Hkey. congruence.
  - destruct (handleZipUpload_rejected JSON_stringify error_message formatBytes now rand
                request MAX_FILE_SIZE b Haccepted) as (r & Heq & _).
    now rewrite Heq.
Qed.

(** X24. A limit configured as 0 is no limit of 0: [parseInt(...) || ...]
    takes 0 for a missing value, and every request is handled as with no
    limit configured, under the limit of 10 MB. *)
Theorem handleZipUpload_zero_limit (request : Request) (b : gmap string R2Object) :
  upload request (Some 0%Z) b = upload request None b.
Proof. reflexivity. Qed.

End UploadCollisions.

(** X23 at an upload whose drawn identifier is the one of a stored site. *)
Lemma handleZipUpload_keeps_other_files_witness :
  snd (handleZipUpload demo_stringify (fun _ => "error") (fun _ => "10 MB")
         "2024-01-01T00:00:00.000Z" (fun n => n) demo_request None
         {[ "sites/abcdefgh/old.css" := mkObject "p{}" (Some (VStr "text/css")) ]})
    !! r2Key (upload_siteId (fun n => n) demo_request) "old.css" =
  ({[ "sites/abcdefgh/old.css" := mkObject "p{}" (Some (VStr "text/css")) ]}
     : gmap string R2Object) !! r2Key (upload_siteId (fun n => n) demo_request) "old.css".
Proof.
  apply (handleZipUpload_keeps_other_files demo_stringify (fun _ => "error")
           (fun _ => "10 MB") "2024-01-01T00:00:00.000Z" (fun n => n) demo_request None
           {[ "sites/abcdefgh/old.css" := mkObject "p{}" (Some (VStr "text/css")) ]}
           (mkFile "application/zip" 2048
              (Ok [("index.html", mkZipObject false (Ok "<p>home</p>"));
                   ("config.json", mkZipObject false (Ok "{mine}"))]))
           [("index.html", mkZipObject false (Ok "<p>home</p>"));
            ("config.json", mkZipObject false (Ok "{mine}"))]
           "old.css").
  - reflexivity.
  - reflexivity.
  - cbn. intros [H | [H | []]]; discriminate H.
  - discriminate.
Defined.

Lemma split_free (s : string) : forallb (free_of "/") (Js.split "/" s) = true.
Proof.
  induction s as [| c s IH]; [reflexivity|].
  cbn [Js.split]. destruct (Ascii.eqb c "/") eqn:Hc; [exact IH|].
  pose proof (split_nonempty "/" s) as Hne.
  destruct (Js.split "/" s) as [| seg rest]; [contradiction|].
  cbn [forallb free_of mem] in IH |- *. now rewrite Hc.
Qed.

Lemma filter_nonempty_segments (parts : list string) :
  forallb (free_of "/") parts = true ->
  forallb segment (List.filter nonempty parts) = true.
Proof.
  induction parts as [| p parts IH]; [reflexivity|].
  cbn [forallb List.filter]. intros H. apply andb_prop in H. destruct H as [Hp Hparts].
  destruct (nonempty p) eqn:Hne; [|now apply IH].
  cbn [forallb]. unfold segment at 1. now rewrite Hne, Hp, IH.
Qed.

Lemma forallb_skipn {A} (f : A -> bool) (n : nat) (l : list A) :
  forallb f l = true -> forallb f (List.skipn n l) = true.
Proof.
  revert l. induction n as [| n IH]; intros l H; [exact H|].
  destruct l as [| x l]; [reflexivity|].
  cbn [forallb] in H. apply andb_prop in H. now apply IH.
Qed.

(** X25. The file a request asks for is a path of segments, none of them
    empty, and so is the key that is read for it.  A file that extraction
    stored under a name with an empty segment, a name that begins or ends
    with a slash or has two slashes in a row, is the requested file of no
    path. *)
Theorem serveHostedSite_requests_segments (pathname : string) :
  forallb segment (Js.split "/" (requestedFile_of pathname)) = true /\
  forall filename,
    forallb segment (Js.split "/" filename) = false ->
    requestedFile_of pathname <> filename.
Proof.
  assert (Hsegs : forallb segment (Js.split "/" (requestedFile_of pathname)) = true).
  { unfold requestedFile_of, Js.slice.
    assert (Hparts : forallb segment (List.skipn 2 (pathParts pathname)) = true).
    { apply forallb_skipn. unfold pathParts.
      apply filter_nonempty_segments, split_free. }
    destruct (List.skipn 2 (pathParts pathname)) as [| seg segs] eqn:Hrest;
      [reflexivity|].
    assert (Hjoin : Js.join "/" (seg :: segs) <> EmptyString).
    { cbn [forallb] in Hparts. apply andb_prop in Hparts. destruct Hparts as [Hseg _].
      unfold segment in Hseg. apply andb_prop in Hseg. destruct Hseg as [Hne _].
      destruct seg; [discriminate Hne|]. destruct segs; discriminate. }
    destruct (Js.join "/" (seg :: segs)) as [| c text] eqn:Hshape; [contradiction|].
    cbn [or_string]. rewrite <- Hshape. now rewrite split_join. }
  split; [exact Hsegs|].
  intros filename Hfilename Heq. rewrite Heq in Hsegs. congruence.
Qed.
